(** * PlayMCP: the stdio transport (mcp/server.ts), the tool handler (server.ts)
      and the browser controller (controllers/playwright.ts)

    A shallow embedding of the line framer and dispatcher of [Server], of the
    catalogue and the [callTool] handler of server.ts, and of the class
    [PlaywrightController] over the calls it makes to Playwright, with the
    JavaScript built-ins they rely on ([JSON.parse], [JSON.stringify],
    property reads, truthiness, string conversion). *)

From Stdlib Require Import String Ascii NArith ZArith Bool List Lia.
Import ListNotations.
Open Scope string_scope.
Open Scope list_scope.

Set Warnings "-register-all".

(* ================================================================== *)
(** ** JavaScript strings *)

(** A JavaScript string is a sequence of UTF-16 code units. *)
Definition jstring := list N.

(** An ASCII literal as a JavaScript string. *)
Definition lit (s : string) : jstring :=
  map N_of_ascii (list_ascii_of_string s).

(** The same, with ['] standing for the double quote (code unit 34), so that
    JSON text can be written down. *)
Definition qlit (s : string) : jstring :=
  map (fun c => if N.eqb c 39 then 34%N else c) (lit s).

Fixpoint str_eqb (a b : jstring) : bool :=
  match a, b with
  | [], [] => true
  | x :: a', y :: b' => N.eqb x y && str_eqb a' b'
  | _, _ => false
  end.

Fixpoint starts_with (pat s : jstring) : bool :=
  match pat, s with
  | [], _ => true
  | p :: pat', c :: s' => N.eqb p c && starts_with pat' s'
  | _ :: _, [] => false
  end.

(** [String.prototype.includes]. *)
Fixpoint includes (s pat : jstring) : bool :=
  starts_with pat s ||
  match s with
  | [] => false
  | _ :: s' => includes s' pat
  end.

(** [String.prototype.split] with a one-unit separator: never the empty list. *)
Fixpoint split (sep : N) (s : jstring) : list jstring :=
  match s with
  | [] => [[]]
  | c :: s' =>
      if N.eqb c sep then [] :: split sep s'
      else match split sep s' with
           | [] => [[c]]
           | l :: ls => (c :: l) :: ls
           end
  end.

(** [Array.prototype.join] on strings. *)
Fixpoint join (sep : jstring) (parts : list jstring) : jstring :=
  match parts with
  | [] => []
  | [p] => p
  | p :: ps => p ++ sep ++ join sep ps
  end.

(** WhiteSpace and LineTerminator code units, as [String.prototype.trim]
    reads them. *)
Definition is_js_space (c : N) : bool :=
  ((9 <=? c) && (c <=? 13) || (c =? 32) || (c =? 160) || (c =? 5760)
   || (8192 <=? c) && (c <=? 8202) || (c =? 8232) || (c =? 8233)
   || (c =? 8239) || (c =? 8287) || (c =? 12288) || (c =? 65279))%N.

Fixpoint drop_space (s : jstring) : jstring :=
  match s with
  | [] => []
  | c :: s' => if is_js_space c then drop_space s' else s
  end.

Definition trim (s : jstring) : jstring :=
  rev (drop_space (rev (drop_space s))).

(** Decimal digits of a natural number, as code units. *)
Fixpoint uint_units (u : Decimal.uint) : jstring :=
  match u with
  | Decimal.Nil => []
  | Decimal.D0 u' => 48%N :: uint_units u'
  | Decimal.D1 u' => 49%N :: uint_units u'
  | Decimal.D2 u' => 50%N :: uint_units u'
  | Decimal.D3 u' => 51%N :: uint_units u'
  | Decimal.D4 u' => 52%N :: uint_units u'
  | Decimal.D5 u' => 53%N :: uint_units u'
  | Decimal.D6 u' => 54%N :: uint_units u'
  | Decimal.D7 u' => 55%N :: uint_units u'
  | Decimal.D8 u' => 56%N :: uint_units u'
  | Decimal.D9 u' => 57%N :: uint_units u'
  end.

Definition N_to_decimal (n : N) : jstring := uint_units (N.to_uint n).

Definition is_digit (c : N) : bool := ((48 <=? c) && (c <=? 57))%N.

(** Value of a run of decimal digits. *)
Definition digits_value (ds : jstring) : N :=
  fold_left (fun acc c => (10 * acc + (c - 48))%N) ds 0%N.

(* ================================================================== *)
(** ** Numbers

    A number is held as the exact decimal it was written as: sign, significant
    digits (each 0..9, neither a leading nor a trailing zero; none for zero)
    and the position of the decimal point, so that the value is
    [0.d1 d2 ... dk * 10 ^ point].  Rounding to binary64 is not modelled: the
    two agree on decimals of at most 15 significant digits in the binary64
    range, which covers every number written below. *)

Record number := { negative : bool; digits : list N; point : Z }.

Fixpoint drop_zeros (ds : list N) : list N :=
  match ds with
  | [] => []
  | d :: ds' => if N.eqb d 0 then drop_zeros ds' else ds
  end.

Definition mk_number (neg : bool) (ds : list N) (pt : Z) : number :=
  let lead := drop_zeros ds in
  let sig := rev (drop_zeros (rev lead)) in
  match sig with
  | [] => {| negative := neg; digits := []; point := 0 |}
  | _ => {| negative := neg; digits := sig;
            point := pt - Z.of_nat (length ds - length lead) |}
  end.

Definition number_of_nat (n : nat) : number :=
  let ds := map (fun c => (c - 48)%N) (N_to_decimal (N.of_nat n)) in
  mk_number false ds (Z.of_nat (length ds)).

Definition number_of_Z (z : Z) : number :=
  let ds := map (fun c => (c - 48)%N) (N_to_decimal (Z.abs_N z)) in
  mk_number (Z.ltb z 0) ds (Z.of_nat (length ds)).

Definition digit_units (ds : list N) : jstring := map (fun d => (d + 48)%N) ds.

(** [Number::toString] in radix 10. *)
Definition number_to_string (x : number) : jstring :=
  match digits x with
  | [] => lit "0"
  | d1 :: rest =>
      let ds := digits x in
      let k := Z.of_nat (length ds) in
      let n := point x in
      let sign := if negative x then lit "-" else [] in
      sign ++
      (if (k <=? n)%Z && (n <=? 21)%Z then
         digit_units ds ++ repeat 48%N (Z.to_nat (n - k))
       else if (0 <? n)%Z && (n <=? 21)%Z then
         digit_units (firstn (Z.to_nat n) ds) ++ lit "." ++
         digit_units (skipn (Z.to_nat n) ds)
       else if (-6 <? n)%Z && (n <=? 0)%Z then
         lit "0." ++ repeat 48%N (Z.to_nat (- n)) ++ digit_units ds
       else
         let e := (n - 1)%Z in
         let es := (if (e <? 0)%Z then lit "-" else lit "+")
                   ++ N_to_decimal (Z.abs_N e) in
         match rest with
         | [] => digit_units [d1] ++ lit "e" ++ es
         | _ => digit_units [d1] ++ lit "." ++ digit_units rest ++ lit "e" ++ es
         end)
  end.

(* ================================================================== *)
(** ** Values

    The values the transport sees: what [JSON.parse] builds, what a handler
    resolves to, and [undefined].  An object is its own properties in
    property order. *)

Inductive value : Type :=
| VUndefined
| VNull
| VBool (b : bool)
| VNumber (n : number)
| VString (s : jstring)
| VArray (elems : list value)
| VObject (props : list (jstring * value)).

Definition VStr (s : string) : value := VString (lit s).
Definition VNat (n : nat) : value := VNumber (number_of_nat n).
Definition VInt (z : Z) : value := VNumber (number_of_Z z).

(** ToBoolean. *)
Definition truthy (v : value) : bool :=
  match v with
  | VUndefined | VNull => false
  | VBool b => b
  | VNumber n => match digits n with [] => false | _ => true end
  | VString s => match s with [] => false | _ => true end
  | VArray _ | VObject _ => true
  end.

Definition is_string (v : value) : bool :=
  match v with VString _ => true | _ => false end.

Definition is_number (v : value) : bool :=
  match v with VNumber _ => true | _ => false end.

Definition is_undefined (v : value) : bool :=
  match v with VUndefined => true | _ => false end.

(** [v === 'lit'] against a string constant. *)
Definition is_str (v : value) (s : string) : bool :=
  match v with VString t => str_eqb t (lit s) | _ => false end.

Fixpoint lookup (k : jstring) (ps : list (jstring * value)) : value :=
  match ps with
  | [] => VUndefined
  | (k', v) :: ps' => if str_eqb k k' then v else lookup k ps'
  end.

Fixpoint has_key (k : jstring) (ps : list (jstring * value)) : bool :=
  match ps with
  | [] => false
  | (k', _) :: ps' => str_eqb k k' || has_key k ps'
  end.

(** What the runtime itself throws. *)
Inductive engine_error : Type :=
| SyntaxErrorIn (text : jstring)                 (* JSON.parse failed on text *)
| CannotRead (target : value) (key : jstring)    (* property read on null or undefined *)
| CannotConvert.                                 (* object to primitive *)

(** A thrown value. *)
Inductive exn : Type :=
| Engine (e : engine_error)                      (* SyntaxError, TypeError *)
| ErrorObj (message : jstring) (suggestion : option jstring)
                                                 (* new Error(m); new BrowserError(m, s) *)
| Thrown (v : value).                            (* anything that is not an Error *)

Inductive completion (A : Type) : Type :=
| Normal (a : A)
| Abrupt (e : exn).
Arguments Normal {A} a.
Arguments Abrupt {A} e.

(** The property read [v.k], for the names the program reads ([method], [id],
    [params], [name], [arguments], [command], [isError], [content], [text] and
    the argument names of the tools): none of them is defined on the String,
    Number, Boolean, Array or Object prototype, so only an object's own
    properties answer. *)
Definition get (v : value) (k : string) : completion value :=
  match v with
  | VUndefined | VNull => Abrupt (Engine (CannotRead v (lit k)))
  | VObject ps => Normal (lookup (lit k) ps)
  | _ => Normal VUndefined
  end.

(** The indexed read [v[i]]. *)
Definition get_index (v : value) (i : nat) : completion value :=
  match v with
  | VUndefined | VNull =>
      Abrupt (Engine (CannotRead v (N_to_decimal (N.of_nat i))))
  | VArray l => Normal (nth i l VUndefined)
  | VString s =>
      Normal (match nth_error s i with
              | Some c => VString [c]
              | None => VUndefined
              end)
  | VObject ps => Normal (lookup (N_to_decimal (N.of_nat i)) ps)
  | _ => Normal VUndefined
  end.

(** ToString, as a template literal applies it.  An array joins its elements
    with a comma, null and undefined elements as the empty string; an object
    is "[object Object]" unless it has an own [toString] property, which for
    data is never callable, and then the conversion throws a TypeError
    ([None]). *)
Fixpoint to_string (v : value) : option jstring :=
  match v with
  | VUndefined => Some (lit "undefined")
  | VNull => Some (lit "null")
  | VBool true => Some (lit "true")
  | VBool false => Some (lit "false")
  | VNumber n => Some (number_to_string n)
  | VString s => Some s
  | VArray l =>
      (fix elems (l : list value) : option jstring :=
         match l with
         | [] => Some []
         | x :: l' =>
             let sx := match x with
                       | VUndefined | VNull => Some []
                       | _ => to_string x
                       end in
             match sx, l' with
             | None, _ => None
             | Some a, [] => Some a
             | Some a, _ :: _ =>
                 match elems l' with
                 | Some b => Some (a ++ lit "," ++ b)
                 | None => None
                 end
             end
         end) l
  | VObject ps =>
      if has_key (lit "toString") ps then None else Some (lit "[object Object]")
  end.

(* ================================================================== *)
(** ** JSON.parse and JSON.stringify *)

Module JSON.

(** *** Lexical analysis

    One pass over the code units.  A number or a literal name is gathered as a
    word (letters, digits, sign, point) and classified when it ends: none of
    these units may directly follow a number or a literal in JSON text, so the
    longest run is the only candidate token. *)

Inductive token : Type :=
| TLBrace | TRBrace | TLBracket | TRBracket | TComma | TColon
| TAtom (v : value).

Inductive lexmode : Type :=
| LTop
| LWord (acc : list N)                  (* units of the word, newest first *)
| LStr (acc : list N)                   (* units of the string, newest first *)
| LEsc (acc : list N)                   (* after a backslash *)
| LHex (acc : list N) (k : nat) (code : N).  (* [S k] hex digits of a u escape to read *)

Definition is_json_space (c : N) : bool :=
  ((c =? 32) || (c =? 9) || (c =? 10) || (c =? 13))%N.

Definition is_word_unit (c : N) : bool :=
  (is_digit c || (c =? 45) || (c =? 43) || (c =? 46)
   || (65 <=? c) && (c <=? 90) || (97 <=? c) && (c <=? 122))%N.

Definition hex_value (c : N) : option N :=
  (if is_digit c then Some (c - 48)
   else if (65 <=? c) && (c <=? 70) then Some (c - 55)
   else if (97 <=? c) && (c <=? 102) then Some (c - 87)
   else None)%N.

Fixpoint span_digits (s : jstring) : jstring * jstring :=
  match s with
  | [] => ([], [])
  | c :: s' =>
      if is_digit c then let (ds, r) := span_digits s' in (c :: ds, r)
      else ([], s)
  end.

(** JSONNumber: an optional minus; the integer part, a single 0 or digits
    not starting with 0; an optional point with at least one digit; an
    optional exponent, e or E, an optional sign and at least one digit. *)
Definition read_number (w : jstring) : option number :=
  let (neg, r0) := match w with
                   | 45%N :: r => (true, r)
                   | _ => (false, w)
                   end in
  let (ip, r1) := span_digits r0 in
  match ip with
  | [] => None
  | 48%N :: _ :: _ => None
  | _ =>
      let frac := match r1 with
                  | 46%N :: r =>
                      let (fp, r') := span_digits r in
                      match fp with [] => None | _ => Some (fp, r') end
                  | _ => Some ([], r1)
                  end in
      match frac with
      | None => None
      | Some (fp, r2) =>
          let expo :=
            match r2 with
            | [] => Some 0%Z
            | c :: r =>
                if (c =? 101)%N || (c =? 69)%N then
                  let (eneg, r') := match r with
                                    | 45%N :: t => (true, t)
                                    | 43%N :: t => (false, t)
                                    | _ => (false, r)
                                    end in
                  let (ep, rest) := span_digits r' in
                  match ep, rest with
                  | _ :: _, [] =>
                      let e := Z.of_N (digits_value ep) in
                      Some (if eneg then (- e)%Z else e)
                  | _, _ => None
                  end
                else None
            end in
          match expo with
          | None => None
          | Some e =>
              Some (mk_number neg
                      (map (fun c => (c - 48)%N) (ip ++ fp))
                      (Z.of_nat (length ip) + e))
          end
      end
  end.

Definition read_word (w : jstring) : option token :=
  if str_eqb w (lit "true") then Some (TAtom (VBool true))
  else if str_eqb w (lit "false") then Some (TAtom (VBool false))
  else if str_eqb w (lit "null") then Some (TAtom VNull)
  else match read_number w with
       | Some n => Some (TAtom (VNumber n))
       | None => None
       end.

(** One unit read between tokens. *)
Definition top_unit (c : N) : option (lexmode * list token) :=
  if is_json_space c then Some (LTop, [])
  else if (c =? 123)%N then Some (LTop, [TLBrace])
  else if (c =? 125)%N then Some (LTop, [TRBrace])
  else if (c =? 91)%N then Some (LTop, [TLBracket])
  else if (c =? 93)%N then Some (LTop, [TRBracket])
  else if (c =? 44)%N then Some (LTop, [TComma])
  else if (c =? 58)%N then Some (LTop, [TColon])
  else if (c =? 34)%N then Some (LStr [], [])
  else if is_word_unit c then Some (LWord [c], [])
  else None.

(** The unit an escape letter stands for. *)
Definition escape_unit (c : N) : option N :=
  (if c =? 34 then Some 34        (* quote *)
   else if c =? 92 then Some 92   (* backslash *)
   else if c =? 47 then Some 47   (* slash *)
   else if c =? 98 then Some 8    (* b: backspace *)
   else if c =? 102 then Some 12  (* f: form feed *)
   else if c =? 110 then Some 10  (* n: line feed *)
   else if c =? 114 then Some 13  (* r: carriage return *)
   else if c =? 116 then Some 9   (* t: tab *)
   else None)%N.

Fixpoint lex (m : lexmode) (s : jstring) : option (list token) :=
  match s with
  | [] =>
      match m with
      | LTop => Some []
      | LWord acc =>
          match read_word (rev acc) with
          | Some t => Some [t]
          | None => None
          end
      | _ => None
      end
  | c :: s' =>
      match m with
      | LTop =>
          match top_unit c with
          | Some (m', ts) =>
              match lex m' s' with
              | Some rest => Some (ts ++ rest)
              | None => None
              end
          | None => None
          end
      | LWord acc =>
          if is_word_unit c then lex (LWord (c :: acc)) s'
          else
            match read_word (rev acc), top_unit c with
            | Some t, Some (m', ts) =>
                match lex m' s' with
                | Some rest => Some (t :: ts ++ rest)
                | None => None
                end
            | _, _ => None
            end
      | LStr acc =>
          if (c =? 34)%N then
            match lex LTop s' with
            | Some rest => Some (TAtom (VString (rev acc)) :: rest)
            | None => None
            end
          else if (c =? 92)%N then lex (LEsc acc) s'
          else if (c <? 32)%N then None
          else lex (LStr (c :: acc)) s'
      | LEsc acc =>
          if (c =? 117)%N then lex (LHex acc 3 0%N) s'
          else match escape_unit c with
               | Some u => lex (LStr (u :: acc)) s'
               | None => None
               end
      | LHex acc k code =>
          match hex_value c with
          | None => None
          | Some d =>
              let code' := (16 * code + d)%N in
              match k with
              | O => lex (LStr (code' :: acc)) s'
              | S k' => lex (LHex acc k' code') s'
              end
          end
      end
  end.

(** *** Objects as [JSON.parse] builds them

    A repeated name keeps its place and takes the last value; names that are
    array indices (canonical decimal, at most 2^32 - 2) come first in
    ascending order, the others follow in the order they were first seen. *)

Definition array_index (k : jstring) : option N :=
  match k with
  | [] => None
  | c :: r =>
      if forallb is_digit k && negb ((c =? 48)%N && negb (length r =? 0)%nat)
         && (length k <=? 10)%nat && (digits_value k <=? 4294967294)%N
      then Some (digits_value k)
      else None
  end.

Fixpoint replace_prop (k : jstring) (v : value) (ps : list (jstring * value))
  : list (jstring * value) :=
  match ps with
  | [] => []
  | (k', v') :: ps' =>
      if str_eqb k k' then (k', v) :: ps' else (k', v') :: replace_prop k v ps'
  end.

Fixpoint insert_index (i : N) (k : jstring) (v : value)
  (ps : list (jstring * value)) : list (jstring * value) :=
  match ps with
  | [] => [(k, v)]
  | (k', v') :: ps' =>
      match array_index k' with
      | Some j =>
          if (j <? i)%N then (k', v') :: insert_index i k v ps'
          else (k, v) :: ps
      | None => (k, v) :: ps
      end
  end.

Definition define_prop (k : jstring) (v : value) (ps : list (jstring * value))
  : list (jstring * value) :=
  if has_key k ps then replace_prop k v ps
  else match array_index k with
       | Some i => insert_index i k v ps
       | None => ps ++ [(k, v)]
       end.

(** *** Syntactic analysis: a pushdown machine over the tokens *)

Inductive frame : Type :=
| FArray (acc : list value)                     (* elements, newest first *)
| FObject (acc : list (jstring * value)) (key : option jstring).
                                                (* members; the name read last *)

Inductive pstate : Type :=
| PValue          (* a value must follow *)
| PFirst          (* after [: a value or ] *)
| PKey (first : bool)   (* a member name; after { also } *)
| PColon
| PNext           (* after a value inside a container: , or the closing bracket *)
| PDone (v : value).

Definition after_value (v : value) (stk : list frame)
  : option (pstate * list frame) :=
  match stk with
  | [] => Some (PDone v, [])
  | FArray acc :: stk' => Some (PNext, FArray (v :: acc) :: stk')
  | FObject acc (Some k) :: stk' =>
      Some (PNext, FObject (define_prop k v acc) None :: stk')
  | FObject _ None :: _ => None
  end.

Definition open_value (t : token) (stk : list frame)
  : option (pstate * list frame) :=
  match t with
  | TAtom v => after_value v stk
  | TLBracket => Some (PFirst, FArray [] :: stk)
  | TLBrace => Some (PKey true, FObject [] None :: stk)
  | _ => None
  end.

Definition pstep (st : pstate) (stk : list frame) (t : token)
  : option (pstate * list frame) :=
  match st with
  | PValue => open_value t stk
  | PFirst =>
      match t, stk with
      | TRBracket, FArray acc :: stk' => after_value (VArray (rev acc)) stk'
      | _, _ => open_value t stk
      end
  | PKey first =>
      match t, stk with
      | TAtom (VString k), FObject acc None :: stk' =>
          Some (PColon, FObject acc (Some k) :: stk')
      | TRBrace, FObject acc None :: stk' =>
          if first then after_value (VObject acc) stk' else None
      | _, _ => None
      end
  | PColon =>
      match t with
      | TColon => Some (PValue, stk)
      | _ => None
      end
  | PNext =>
      match t, stk with
      | TComma, FArray _ :: _ => Some (PValue, stk)
      | TComma, FObject _ None :: _ => Some (PKey false, stk)
      | TRBracket, FArray acc :: stk' => after_value (VArray (rev acc)) stk'
      | TRBrace, FObject acc None :: stk' => after_value (VObject acc) stk'
      | _, _ => None
      end
  | PDone _ => None
  end.

Fixpoint run (st : pstate) (stk : list frame) (ts : list token)
  : option value :=
  match ts with
  | [] => match st with PDone v => Some v | _ => None end
  | t :: ts' =>
      match pstep st stk t with
      | Some (st', stk') => run st' stk' ts'
      | None => None
      end
  end.

(** [JSON.parse(text)]: the value, or [None] where it throws a SyntaxError. *)
Definition parse (text : jstring) : option value :=
  match lex LTop text with
  | Some ts => run PValue [] ts
  | None => None
  end.

(** *** Serialization *)

Definition hex_digit (d : N) : N := (if d <? 10 then d + 48 else d + 87)%N.

Definition unicode_escape (c : N) : jstring :=
  lit "\u" ++ [hex_digit ((c / 4096) mod 16); hex_digit ((c / 256) mod 16);
               hex_digit ((c / 16) mod 16); hex_digit (c mod 16)]%N.

Definition is_high_surrogate (c : N) : bool := ((55296 <=? c) && (c <=? 56319))%N.
Definition is_low_surrogate (c : N) : bool := ((56320 <=? c) && (c <=? 57343))%N.

(** The body of QuoteJSONString: short escapes, other controls and lone
    surrogates as u escapes, the rest as it is. *)
Fixpoint quote_units (s : jstring) : jstring :=
  match s with
  | [] => []
  | c :: s' =>
      if (c =? 8)%N then lit "\b" ++ quote_units s'
      else if (c =? 9)%N then lit "\t" ++ quote_units s'
      else if (c =? 10)%N then lit "\n" ++ quote_units s'
      else if (c =? 12)%N then lit "\f" ++ quote_units s'
      else if (c =? 13)%N then lit "\r" ++ quote_units s'
      else if (c =? 34)%N then [92; 34]%N ++ quote_units s'
      else if (c =? 92)%N then [92; 92]%N ++ quote_units s'
      else if (c <? 32)%N then unicode_escape c ++ quote_units s'
      else if is_high_surrogate c then
        match s' with
        | d :: s'' =>
            if is_low_surrogate d then c :: d :: quote_units s''
            else unicode_escape c ++ quote_units s'
        | [] => unicode_escape c
        end
      else if is_low_surrogate c then unicode_escape c ++ quote_units s'
      else c :: quote_units s'
  end.

Definition quote (s : jstring) : jstring := [34%N] ++ quote_units s ++ [34%N].

(** The brackets around the serialized parts of an array or an object:
    [indent] is the indentation of the parts, [stepback] that of the closing
    bracket, both empty when [gap] is. *)
Definition wrap (gap indent stepback : jstring) (opening closing : string)
  (parts : list jstring) : jstring :=
  match parts, gap with
  | [], _ => lit opening ++ lit closing
  | _, [] => lit opening ++ join (lit ",") parts ++ lit closing
  | _, _ =>
      lit opening ++ [10%N] ++ indent
      ++ join (lit "," ++ [10%N] ++ indent) parts
      ++ [10%N] ++ stepback ++ lit closing
  end.

(** SerializeJSONProperty: [None] is [undefined].  No value of the model has a
    callable [toJSON], and every number is finite. *)
Fixpoint serialize (gap indent : jstring) (v : value) : option jstring :=
  match v with
  | VUndefined => None
  | VNull => Some (lit "null")
  | VBool true => Some (lit "true")
  | VBool false => Some (lit "false")
  | VNumber n => Some (number_to_string n)
  | VString s => Some (quote s)
  | VArray l =>
      let inner := indent ++ gap in
      Some (wrap gap inner indent "[" "]"
              ((fix elems (l : list value) : list jstring :=
                  match l with
                  | [] => []
                  | x :: l' =>
                      match serialize gap inner x with
                      | Some t => t
                      | None => lit "null"
                      end :: elems l'
                  end) l))
  | VObject ps =>
      let inner := indent ++ gap in
      let colon := match gap with [] => lit ":" | _ => lit ": " end in
      Some (wrap gap inner indent "{" "}"
              ((fix members (ps : list (jstring * value)) : list jstring :=
                  match ps with
                  | [] => []
                  | (k, x) :: ps' =>
                      match serialize gap inner x with
                      | Some t => (quote k ++ colon ++ t) :: members ps'
                      | None => members ps'
                      end
                  end) ps))
  end.

(** [JSON.stringify(v)]. *)
Definition stringify (v : value) : option jstring := serialize [] [] v.

(** [JSON.stringify(v, null, 2)]. *)
Definition stringify_indented (v : value) : option jstring :=
  serialize (lit "  ") [] v.

End JSON.

(** An object literal with ASCII property names. *)
Definition obj (ps : list (string * value)) : value :=
  VObject (map (fun p => (lit (fst p), snd p)) ps).

(** The line [console.log(JSON.stringify(v))] writes. *)
Definition written (v : value) : jstring :=
  match JSON.stringify v with
  | Some s => s
  | None => lit "undefined"
  end.

(** Sequencing of reads that may throw. *)
Definition and_then {A B : Type} (c : completion A) (f : A -> completion B)
  : completion B :=
  match c with
  | Normal a => f a
  | Abrupt e => Abrupt e
  end.

(* ================================================================== *)
(** ** Effects

    A computation over a state [W] that ends normally or by a throw.  An
    asynchronous function is run to the point where its promise settles:
    [Normal] is resolved, [Abrupt] is rejected.  A promise that never settles
    is outside the model. *)

Definition M (W A : Type) : Type := W -> completion A * W.

Definition ret {W A : Type} (a : A) : M W A := fun w => (Normal a, w).

Definition bind {W A B : Type} (m : M W A) (f : A -> M W B) : M W B :=
  fun w =>
    match m w with
    | (Normal a, w') => f a w'
    | (Abrupt e, w') => (Abrupt e, w')
    end.

Definition throw {W A : Type} (e : exn) : M W A := fun w => (Abrupt e, w).

Definition lift {W A : Type} (c : completion A) : M W A := fun w => (c, w).

Definition try_catch {W A : Type} (body : M W A) (handler : exn -> M W A)
  : M W A :=
  fun w =>
    match body w with
    | (Normal a, w') => (Normal a, w')
    | (Abrupt e, w') => handler e w'
    end.

Notation "x <- m ;; k" := (bind m (fun x => k))
  (at level 61, m at next level, right associativity).

(* ================================================================== *)
(** ** mcp/types.ts *)

Module Types.

(** Modelled from the spec: the declarations of [ServerConfig] and
    [ServerCapabilities] (mcp/types.ts) are missing.  The spec's
    ServerIdentity has a name and a version, its Capabilities are a nested
    mapping; server.ts builds them as [{name, version}] and
    [{capabilities: {tools}}]. *)
Record ServerConfig := { name : jstring; version : jstring }.

Record ServerCapabilities := { capabilities : value }.

End Types.

(* ================================================================== *)
(** ** mcp/server.ts: class Server *)

Set Implicit Arguments.

Section Transport.

(** The world outside the transport (the browser, whatever a handler keeps or
    writes itself), and the runtime's wording of its own errors. *)
Variable St : Type.
Variable engine_message : engine_error -> jstring.

Definition ListToolsHandler := M St value.
Definition CallToolHandler := value -> M St value.

Record Server := {
  config : Types.ServerConfig;
  capabilities : Types.ServerCapabilities;
  listToolsHandler : option ListToolsHandler;
  callToolHandler : option CallToolHandler
}.

(** The constructor leaves both handlers unset. *)
Definition new_Server (config : Types.ServerConfig)
  (capabilities : Types.ServerCapabilities) : Server :=
  {| config := config; capabilities := capabilities;
     listToolsHandler := None; callToolHandler := None |}.

Inductive request_handler : Type :=
| listTools (handler : ListToolsHandler)
| callTool (handler : CallToolHandler).

Definition setRequestHandler (this : Server) (h : request_handler) : Server :=
  match h with
  | listTools handler =>
      {| config := config this; capabilities := capabilities this;
         listToolsHandler := Some handler;
         callToolHandler := callToolHandler this |}
  | callTool handler =>
      {| config := config this; capabilities := capabilities this;
         listToolsHandler := listToolsHandler this;
         callToolHandler := Some handler |}
  end.

(** The lines the transport has written to standard output, oldest first,
    and the outer world.  What a handler writes itself (the controller logs
    to standard output when its debug flag is set) belongs to the outer
    world. *)
Record world := { stdout : list jstring; ext : St }.

Definition await (h : M St value) : M world value :=
  fun w =>
    let (c, s) := h (ext w) in (c, {| stdout := stdout w; ext := s |}).

(** [console.log(JSON.stringify(v))]. *)
Definition console_log_json (v : value) : M world unit :=
  fun w => (Normal tt, {| stdout := stdout w ++ [written v]; ext := ext w |}).

Definition JSON_parse (input : jstring) : M world value :=
  match JSON.parse input with
  | Some v => ret v
  | None => throw (Engine (SyntaxErrorIn input))
  end.

(** [error instanceof Error ? error.message : 'Unknown error']. *)
Definition error_message (error : exn) : jstring :=
  match error with
  | Engine e => engine_message e
  | ErrorObj m _ => m
  | Thrown _ => lit "Unknown error"
  end.

(** The three shapes written to standard output. *)
Definition response_envelope (id result : value) : value :=
  obj [("jsonrpc", VStr "2.0"); ("id", id); ("result", result)].

Definition error_envelope (id : value) (message : jstring) : value :=
  obj [("jsonrpc", VStr "2.0"); ("id", id);
       ("error", obj [("code", VInt (-32603));
                      ("message", VString message);
                      ("data", obj [("suggestion", VStr "Check input format")])])].

Definition legacy_envelope (result : value) : value :=
  obj [("type", VStr "response"); ("result", result)].

Definition call_request (name arguments : value) : value :=
  obj [("params", obj [("name", name); ("arguments", arguments)])].

(** [response.content[0].text]. *)
Definition first_text (response : value) : completion value :=
  and_then (get response "content") (fun content =>
  and_then (get_index content 0) (fun first =>
  get first "text")).

(** [response.content[1]?.text]. *)
Definition second_text (response : value) : completion value :=
  and_then (get response "content") (fun content =>
  and_then (get_index content 1) (fun second =>
  match second with
  | VUndefined | VNull => Normal VUndefined
  | _ => get second "text"
  end)).

(** The [result] of the legacy envelope: [success: !response.isError], then
    the spread of the error object or of the message object. *)
Definition legacy_result (response : value) : M world value :=
  isError <- lift (get response "isError") ;;
  if truthy isError then
    message <- lift (first_text response) ;;
    suggestion <- lift (second_text response) ;;
    ret (obj [("success", VBool false);
              ("error", obj [("message", message); ("suggestion", suggestion)])])
  else
    message <- lift (first_text response) ;;
    ret (obj [("success", VBool true); ("message", message)]).

(** The [try] block of [handleInput], each early [return] as the end of its
    branch.  [message.method] is read once: the reads are pure. *)
Definition dispatch (this : Server) (input : jstring) : M world unit :=
  message <- JSON_parse input ;;
  method <- lift (get message "method") ;;
  if is_str method "initialize" then
    id <- lift (get message "id") ;;
    console_log_json
      (response_envelope id
         (obj [("protocolVersion", VStr "2024-11-05");
               ("capabilities", Types.capabilities (capabilities this));
               ("serverInfo",
                obj [("name", VString (Types.name (config this)));
                     ("version", VString (Types.version (config this)))])]))
  else if is_str method "notifications/initialized" then
    ret tt
  else if is_str method "tools/list" then
    match listToolsHandler this with
    | None => throw (ErrorObj (lit "No list tools handler registered") None)
    | Some handler =>
        response <- await handler ;;
        id <- lift (get message "id") ;;
        console_log_json (response_envelope id response)
    end
  else if is_str method "tools/call" then
    match callToolHandler this with
    | None => throw (ErrorObj (lit "No call tool handler registered") None)
    | Some handler =>
        params <- lift (get message "params") ;;
        name <- lift (get params "name") ;;
        arguments <- lift (get params "arguments") ;;
        response <- await (handler (call_request name arguments)) ;;
        id <- lift (get message "id") ;;
        console_log_json (response_envelope id response)
    end
  else
    command <- lift (get message "command") ;;
    if truthy command then
      match callToolHandler this with
      | None => throw (ErrorObj (lit "No call tool handler registered") None)
      | Some handler =>
          arguments <- lift (get message "arguments") ;;
          response <- await (handler (call_request command arguments)) ;;
          result <- legacy_result response ;;
          console_log_json (legacy_envelope result)
      end
    else ret tt.

(** The [catch] block of [handleInput]: the id is read by parsing the input
    again when the text holds the four units of a quoted id, and is null
    otherwise. *)
Definition report (input : jstring) (error : exn) : M world unit :=
  id <- (if includes input (qlit "'id'") then
           again <- JSON_parse input ;;
           lift (get again "id")
         else ret VNull) ;;
  console_log_json (error_envelope id (error_message error)).

(** [handleInput(input)]. *)
Definition handleInput (this : Server) (input : jstring) : M world unit :=
  try_catch (dispatch this input) (report input).

(** *** connect: the listener on standard input *)

(** One [data] event: the buffer it leaves, and the lines it hands to
    [handleInput], in order. *)
Definition on_data (buffer chunk : jstring) : jstring * list jstring :=
  let buffer := buffer ++ chunk in
  if includes buffer [10%N] then
    let lines := split 10 buffer in
    (last lines [],                                    (* lines.pop() || '' *)
     filter (fun line => truthy (VString (trim line))) (removelast lines))
  else (buffer, []).

(** The buffer left and the lines handed over by a sequence of chunks. *)
Fixpoint feed (buffer : jstring) (chunks : list jstring)
  : jstring * list jstring :=
  match chunks with
  | [] => (buffer, [])
  | chunk :: rest =>
      let (buffer', lines) := on_data buffer chunk in
      let (final, more) := feed buffer' rest in
      (final, lines ++ more)
  end.

(** The calls of one event, each run to its end before the next starts, and
    how each ended.  The listener does not await them: with handlers that
    suspend, the calls interleave, which is not modelled. *)
Fixpoint handle_lines (this : Server) (lines : list jstring) (w : world)
  : list (completion unit) * world :=
  match lines with
  | [] => ([], w)
  | line :: rest =>
      let (c, w') := handleInput this line w in
      let (cs, w'') := handle_lines this rest w' in
      (c :: cs, w'')
  end.

End Transport.

Unset Implicit Arguments.

(* ================================================================== *)
(** ** types/index.ts and controllers/playwright.ts *)

Module Index.

(** [class BrowserError extends Error], with its optional suggestion. *)
Record BrowserError := { message : jstring; suggestion : option jstring }.

End Index.

Module Playwright.

(** What [scroll] resolves to. *)
Record ScrollPosition := { x : value; y : value }.
Record ScrollResult := { before : ScrollPosition; after : ScrollPosition }.

Set Implicit Arguments.

Section Controller.

Variable St : Type.

(** A method of [PlaywrightController]: each wraps its whole body in a [try]
    whose [catch] throws a [BrowserError], so that is all it can throw.  The
    arguments are values: the casts of server.ts check nothing. *)
Definition Op (A : Type) : Type := St -> (A + Index.BrowserError) * St.

Record PlaywrightController := {
  openBrowser : value -> value -> Op unit;
  closeBrowser : Op unit;
  navigate : value -> Op unit;
  click : value -> Op unit;
  type : value -> value -> Op unit;
  moveMouse : value -> value -> Op unit;
  scroll : value -> value -> value -> Op ScrollResult;
  screenshot : value -> Op unit;
  getPageSource : Op jstring;
  getPageText : Op jstring;
  getPageTitle : Op jstring;
  getPageUrl : Op jstring;
  getScripts : Op (list jstring);
  getStylesheets : Op (list jstring);
  getMetaTags : Op value;
  getLinks : Op value;
  getImages : Op value;
  getForms : Op value;
  getElementContent : value -> Op value;
  executeJavaScript : value -> Op value;
  getElementHierarchy : value -> value -> value -> value -> Op value
}.

(** Awaiting a method of the controller. *)
Definition call {A : Type} (op : Op A) : M St A :=
  fun s =>
    match op s with
    | (inl a, s') => (Normal a, s')
    | (inr e, s') =>
        (Abrupt (ErrorObj (Index.message e) (Index.suggestion e)), s')
    end.

End Controller.

Unset Implicit Arguments.

End Playwright.

(* ================================================================== *)
(** ** server.ts *)

Set Implicit Arguments.

Section App.

Import Playwright.

Variable St : Type.
Variable engine_message : engine_error -> jstring.

(** The binary64 difference [a - b], kept abstract. *)
Variable minus : value -> value -> value.

(** The catalogue [tools], a name and a descriptor each, in the order of the
    object literal. *)
Variable tools : list (jstring * value).

Variable playwrightController : PlaywrightController St.


(** [{content: [{type: "text", text}]}], without and with [isError: true]. *)
Definition text_content (text : value) : value :=
  VArray [obj [("type", VStr "text"); ("text", text)]].

Definition success (text : value) : value :=
  obj [("content", text_content text)].

Definition failure (text : value) : value :=
  obj [("content", text_content text); ("isError", VBool true)].

(** [a || b]. *)
Definition or_else (a b : value) : value := if truthy a then a else b.

(** The default [= {}] of the destructuring pattern. *)
Definition or_empty (arguments : value) : value :=
  if is_undefined arguments then VObject [] else arguments.

(** [JSON.stringify(v, null, 2)] as a value. *)
Definition indented (v : value) : value :=
  match JSON.stringify_indented v with
  | Some s => VString s
  | None => VUndefined
  end.

Definition position (p : ScrollPosition) : value :=
  obj [("x", x p); ("y", y p)].

(** A substitution [${v}] of a template literal. *)
Definition interpolate (v : value) : completion jstring :=
  match to_string v with
  | Some s => Normal s
  | None => Abrupt (Engine CannotConvert)
  end.

(** The [switch] of the [callTool] handler.  Where a condition reads two
    properties of [args], both are read at once: the reads are pure. *)
Definition tool_switch (name args : value) : M St value :=
  let ctl := playwrightController in
  if is_str name "openBrowser" then
    headless <- lift (get args "headless") ;;
    debug <- lift (get args "debug") ;;
    _ <- call (openBrowser ctl headless debug) ;;
    ret (success (VStr "Browser opened successfully"))
  else if is_str name "navigate" then
    url <- lift (get args "url") ;;
    if negb (truthy url) || negb (is_string url) then
      ret (failure (VStr "URL is required"))
    else
      _ <- call (navigate ctl url) ;;
      ret (success (VStr "Navigation successful"))
  else if is_str name "type" then
    selector <- lift (get args "selector") ;;
    text <- lift (get args "text") ;;
    if negb (truthy selector) || negb (truthy text) then
      ret (failure (VStr "Selector and text are required"))
    else
      _ <- call (type ctl selector text) ;;
      ret (success (VStr "Text entered successfully"))
  else if is_str name "click" then
    selector <- lift (get args "selector") ;;
    if negb (truthy selector) then
      ret (failure (VStr "Selector is required"))
    else
      _ <- call (click ctl selector) ;;
      ret (success (VStr "Click successful"))
  else if is_str name "moveMouse" then
    ax <- lift (get args "x") ;;
    ay <- lift (get args "y") ;;
    if negb (is_number ax) || negb (is_number ay) then
      ret (failure (VStr "X and Y coordinates are required"))
    else
      _ <- call (moveMouse ctl ax ay) ;;
      ret (success (VStr "Mouse moved successfully"))
  else if is_str name "scroll" then
    ax <- lift (get args "x") ;;
    ay <- lift (get args "y") ;;
    if negb (is_number ax) || negb (is_number ay) then
      ret (failure (VStr "X and Y scroll amounts are required"))
    else
      smooth <- lift (get args "smooth") ;;
      scrollResult <- call (scroll ctl ax ay (or_else smooth (VBool false))) ;;
      ret (success
             (indented
                (obj [("message", VStr "Page scrolled successfully");
                      ("before", position (before scrollResult));
                      ("after", position (after scrollResult));
                      ("scrolled",
                       obj [("x", minus (x (after scrollResult))
                                        (x (before scrollResult)));
                            ("y", minus (y (after scrollResult))
                                        (y (before scrollResult)))])])))
  else if is_str name "screenshot" then
    path <- lift (get args "path") ;;
    if negb (truthy path) then
      ret (failure (VStr "Path is required"))
    else
      _ <- call (screenshot ctl args) ;;
      ret (success (VStr "Screenshot taken successfully"))
  else if is_str name "getPageSource" then
    source <- call (getPageSource ctl) ;;
    ret (success (VString source))
  else if is_str name "getPageText" then
    text <- call (getPageText ctl) ;;
    ret (success (VString text))
  else if is_str name "getPageTitle" then
    title <- call (getPageTitle ctl) ;;
    ret (success (VString title))
  else if is_str name "getPageUrl" then
    url <- call (getPageUrl ctl) ;;
    ret (success (VString url))
  else if is_str name "getScripts" then
    scripts <- call (getScripts ctl) ;;
    ret (success (VString (join [10%N] scripts)))
  else if is_str name "getStylesheets" then
    stylesheets <- call (getStylesheets ctl) ;;
    ret (success (VString (join [10%N] stylesheets)))
  else if is_str name "getMetaTags" then
    metaTags <- call (getMetaTags ctl) ;;
    ret (success (indented metaTags))
  else if is_str name "getLinks" then
    links <- call (getLinks ctl) ;;
    ret (success (indented links))
  else if is_str name "getImages" then
    images <- call (getImages ctl) ;;
    ret (success (indented images))
  else if is_str name "getForms" then
    forms <- call (getForms ctl) ;;
    ret (success (indented forms))
  else if is_str name "getElementContent" then
    selector <- lift (get args "selector") ;;
    if negb (truthy selector) then
      ret (failure (VStr "Selector is required"))
    else
      content <- call (getElementContent ctl selector) ;;
      ret (success (indented content))
  else if is_str name "getElementHierarchy" then
    selector <- lift (get args "selector") ;;
    maxDepth <- lift (get args "maxDepth") ;;
    includeText <- lift (get args "includeText") ;;
    includeAttributes <- lift (get args "includeAttributes") ;;
    hierarchy <- call (getElementHierarchy ctl
                         (or_else selector (VStr "body"))
                         (or_else maxDepth (VNat 3))
                         (or_else includeText (VBool false))
                         (or_else includeAttributes (VBool false))) ;;
    ret (success (indented hierarchy))
  else if is_str name "executeJavaScript" then
    script <- lift (get args "script") ;;
    if negb (truthy script) || negb (is_string script) then
      ret (failure (VStr "JavaScript script is required"))
    else
      result <- call (executeJavaScript ctl script) ;;
      ret (success
             (if negb (is_undefined result) then indented result
              else VStr "Script executed successfully (no return value)"))
  else if is_str name "scroll" then
    ax <- lift (get args "x") ;;
    ay <- lift (get args "y") ;;
    if negb (is_number ax) || negb (is_number ay) then
      ret (failure (VStr "X and Y scroll amounts are required"))
    else
      _ <- call (scroll ctl ax ay VUndefined) ;;
      ret (success (VStr "Page scrolled successfully"))
  else if is_str name "closeBrowser" then
    _ <- call (closeBrowser ctl) ;;
    ret (success (VStr "Browser closed successfully"))
  else
    s <- lift (interpolate name) ;;
    ret (failure (VString (lit "Unknown tool: " ++ s))).

(** [error.message] and [error.suggestion] of a caught value. *)
Definition caught_message (error : exn) : completion value :=
  match error with
  | Engine e => Normal (VString (engine_message e))
  | ErrorObj m _ => Normal (VString m)
  | Thrown v => get v "message"
  end.

Definition caught_suggestion (error : exn) : completion value :=
  match error with
  | Engine _ => Normal VUndefined
  | ErrorObj _ (Some s) => Normal (VString s)
  | ErrorObj _ None => Normal VUndefined
  | Thrown v => get v "suggestion"
  end.

(** The [catch] of the handler. *)
Definition tool_failure (error : exn) : M St value :=
  m <- lift (caught_message error) ;;
  ms <- lift (interpolate m) ;;
  s <- lift (caught_suggestion error) ;;
  tail <- (if truthy s then
             ss <- lift (interpolate s) ;;
             ret ([10%N] ++ lit "Suggestion: " ++ ss)
           else ret []) ;;
  ret (failure (VString (lit "Error: " ++ ms ++ tail))).

(** The handler registered for [callTool]. *)
Definition callTool_handler (request : value) : M St value :=
  params <- lift (get request "params") ;;
  name <- lift (get params "name") ;;
  arguments <- lift (get params "arguments") ;;
  let args := or_empty arguments in
  try_catch (tool_switch name args) tool_failure.

(** The handler registered for [listTools]: [{tools: Object.values(tools)}]. *)
Definition listTools_handler : M St value :=
  ret (obj [("tools", VArray (map snd tools))]).

(** The server as [runServer] connects it. *)
Definition server : Server St :=
  setRequestHandler
    (setRequestHandler
       (new_Server St
          {| Types.name := lit "playmcp-browser"; Types.version := lit "1.0.0" |}
          {| Types.capabilities := obj [("tools", VObject tools)] |})
       (listTools listTools_handler))
    (callTool callTool_handler).

End App.

Unset Implicit Arguments.

(* ================================================================== *)
(** ** Vocabulary of the statements *)

(** The methods [handleInput] knows. *)
Definition protocol_methods : list string :=
  ["initialize"; "notifications/initialized"; "tools/list"; "tools/call"].

Definition recognized (method : value) : bool :=
  existsb (is_str method) protocol_methods.

(** The property [v.k], undefined where the read throws. *)
Definition field (v : value) (k : string) : value :=
  match get v k with
  | Normal a => a
  | Abrupt _ => VUndefined
  end.

(** The shape of a tool response: one text block, with or without the error
    flag. *)
Definition content_shaped (response : value) : Prop :=
  exists text, response = success text \/ response = failure text.

(** A computation that throws nothing but Error objects. *)
Definition throws_errors {W A : Type} (m : M W A) : Prop :=
  forall w, match fst (m w) with
            | Abrupt (Thrown _) => False
            | _ => True
            end.

(** A computation that does so and answers in the shape of a tool response. *)
Definition answers_in_shape {W : Type} (m : M W value) : Prop :=
  forall w, match fst (m w) with
            | Normal response => content_shaped response
            | Abrupt (Thrown _) => False
            | Abrupt _ => True
            end.

(** A line with no unit other than white space: empty or blank. *)
Definition blank (line : jstring) : bool := forallb is_js_space line.

Definition has_newline (s : jstring) : bool :=
  existsb (fun c => N.eqb c 10) s.

(** The text of the handler's failure: the message, then the suggestion on a
    line of its own when there is one (an empty suggestion counts as none). *)
Definition failure_text (m : jstring) (s : option jstring) : jstring :=
  lit "Error: " ++ m ++
  match s with
  | Some (c :: t) => [10%N] ++ lit "Suggestion: " ++ c :: t
  | _ => []
  end.

Set Implicit Arguments.

Section Awaited.

Import Playwright.

Variable St : Type.
Variable playwrightController : PlaywrightController St.

(** What a method threw, if it did. *)
Definition thrown {A : Type} (r : (A + Index.BrowserError) * St)
  : option (Index.BrowserError * St) :=
  match r with
  | (inr e, s) => Some (e, s)
  | (inl _, _) => None
  end.

(** The failure of the controller method a tool awaits, if the tool gets as
    far as awaiting one and the method throws: the BrowserError and the world
    the method leaves.  [None] where the arguments are refused before any
    method is called, where the name is unknown, and where the method
    succeeds. *)
Definition awaited_failure (name args : value) (s : St)
  : option (Index.BrowserError * St) :=
  let ctl := playwrightController in
  let arg := field args in
  if is_str name "openBrowser" then
    thrown (openBrowser ctl (arg "headless") (arg "debug") s)
  else if is_str name "navigate" then
    if truthy (arg "url") && is_string (arg "url")
    then thrown (navigate ctl (arg "url") s) else None
  else if is_str name "type" then
    if truthy (arg "selector") && truthy (arg "text")
    then thrown (type ctl (arg "selector") (arg "text") s) else None
  else if is_str name "click" then
    if truthy (arg "selector") then thrown (click ctl (arg "selector") s)
    else None
  else if is_str name "moveMouse" then
    if is_number (arg "x") && is_number (arg "y")
    then thrown (moveMouse ctl (arg "x") (arg "y") s) else None
  else if is_str name "scroll" then
    if is_number (arg "x") && is_number (arg "y")
    then thrown (scroll ctl (arg "x") (arg "y")
                   (or_else (arg "smooth") (VBool false)) s)
    else None
  else if is_str name "screenshot" then
    if truthy (arg "path") then thrown (screenshot ctl args s) else None
  else if is_str name "getPageSource" then thrown (getPageSource ctl s)
  else if is_str name "getPageText" then thrown (getPageText ctl s)
  else if is_str name "getPageTitle" then thrown (getPageTitle ctl s)
  else if is_str name "getPageUrl" then thrown (getPageUrl ctl s)
  else if is_str name "getScripts" then thrown (getScripts ctl s)
  else if is_str name "getStylesheets" then thrown (getStylesheets ctl s)
  else if is_str name "getMetaTags" then thrown (getMetaTags ctl s)
  else if is_str name "getLinks" then thrown (getLinks ctl s)
  else if is_str name "getImages" then thrown (getImages ctl s)
  else if is_str name "getForms" then thrown (getForms ctl s)
  else if is_str name "getElementContent" then
    if truthy (arg "selector")
    then thrown (getElementContent ctl (arg "selector") s) else None
  else if is_str name "getElementHierarchy" then
    thrown (getElementHierarchy ctl
              (or_else (arg "selector") (VStr "body"))
              (or_else (arg "maxDepth") (VNat 3))
              (or_else (arg "includeText") (VBool false))
              (or_else (arg "includeAttributes") (VBool false)) s)
  else if is_str name "executeJavaScript" then
    if truthy (arg "script") && is_string (arg "script")
    then thrown (executeJavaScript ctl (arg "script") s) else None
  else if is_str name "closeBrowser" then thrown (closeBrowser ctl s)
  else None.

End Awaited.

Unset Implicit Arguments.

(* ================================================================== *)
(** ** Concrete servers for the examples *)

Module Fixture.

(** A wording of the runtime's errors. *)
Definition wording (e : engine_error) : jstring :=
  match e with
  | SyntaxErrorIn _ => lit "Unexpected token in JSON"
  | CannotRead _ key => lit "Cannot read properties (reading " ++ key ++ lit ")"
  | CannotConvert => lit "Cannot convert object to primitive value"
  end.

Definition identity : Types.ServerConfig :=
  {| Types.name := lit "playmcp-browser"; Types.version := lit "1.0.0" |}.

Definition declared : Types.ServerCapabilities :=
  {| Types.capabilities := obj [("tools", obj [])] |}.

(** A server with no handler registered; the outer world counts the calls
    handlers receive. *)
Definition bare : Server nat := new_Server nat identity declared.

(** A call handler that resolves to [response] and counts the call. *)
Definition answering (response : value) : CallToolHandler nat :=
  fun _ n => (Normal response, S n).

Definition with_call (response : value) : Server nat :=
  setRequestHandler bare (callTool (answering response)).


Definition with_list (response : value) : Server nat :=
  setRequestHandler bare (listTools (fun n => (Normal response, S n))).

Definition start : world nat := {| stdout := []; ext := 0 |}.

(** A controller whose browser was never opened: [openBrowser] and
    [closeBrowser] succeed, [navigate] fails as the controller's [catch] has
    it, the others fail with [error]. *)
Definition fine {A : Type} (a : A) : Playwright.Op nat A :=
  fun n => (inl a, S n).

Definition failing {A : Type} (error : Index.BrowserError) : Playwright.Op nat A :=
  fun n => (inr error, S n).

Definition navigation_failed : Index.BrowserError :=
  {| Index.message := lit "Failed to navigate";
     Index.suggestion := Some (lit "Check if the URL is valid and accessible") |}.

Definition closed (error : Index.BrowserError) : Playwright.PlaywrightController nat :=
  {| Playwright.openBrowser := fun _ _ => fine tt;
     Playwright.closeBrowser := fine tt;
     Playwright.navigate := fun _ => failing navigation_failed;
     Playwright.click := fun _ => failing error;
     Playwright.type := fun _ _ => failing error;
     Playwright.moveMouse := fun _ _ => failing error;
     Playwright.scroll := fun _ _ _ => failing error;
     Playwright.screenshot := fun _ => failing error;
     Playwright.getPageSource := failing error;
     Playwright.getPageText := failing error;
     Playwright.getPageTitle := failing error;
     Playwright.getPageUrl := failing error;
     Playwright.getScripts := failing error;
     Playwright.getStylesheets := failing error;
     Playwright.getMetaTags := failing error;
     Playwright.getLinks := failing error;
     Playwright.getImages := failing error;
     Playwright.getForms := failing error;
     Playwright.getElementContent := fun _ => failing error;
     Playwright.executeJavaScript := fun _ => failing error;
     Playwright.getElementHierarchy := fun _ _ _ _ => failing error |}.

(** server.ts over that controller, with an empty catalogue. *)
Definition app (error : Index.BrowserError) : Server nat :=
  server wording (fun _ _ => VNat 0) [] (closed error).

End Fixture.

(* ================================================================== *)
(** ** Vocabulary of the further statements *)

(** The output of [w'] is that of [w], with at most one serialized value
    after it. *)
Definition appends_at_most_one {St : Type} (w w' : world St) : Prop :=
  stdout w' = stdout w \/ exists v, stdout w' = stdout w ++ [written v].

(** A computation that writes nothing. *)
Definition quiet {St A : Type} (m : M (world St) A) : Prop :=
  forall w, stdout (snd (m w)) = stdout w.

(** A computation that writes at most one line, and none when it throws. *)
Definition writes_last {St A : Type} (m : M (world St) A) : Prop :=
  forall w, match m w with
            | (Normal _, w') => appends_at_most_one w w'
            | (Abrupt _, w') => stdout w' = stdout w
            end.

(** Arrays and objects, as against the scalars. *)
Definition is_container (v : value) : bool :=
  match v with
  | VArray _ | VObject _ => true
  | _ => false
  end.

(** [v == null]. *)
Definition is_nullish (v : value) : bool :=
  match v with
  | VUndefined | VNull => true
  | _ => false
  end.

Definition is_string_token (t : JSON.token) : bool :=
  match t with
  | JSON.TAtom (VString _) => true
  | _ => false
  end.

Definition has_quote (s : jstring) : bool := existsb (fun c => N.eqb c 34) s.

(** What a message makes [handleInput] consult: the list slot, the call
    slot. *)
Definition consults_list (message : value) : bool :=
  is_str (field message "method") "tools/list".

Definition consults_call (message : value) : bool :=
  is_str (field message "method") "tools/call" ||
  negb (recognized (field message "method")) &&
  truthy (field message "command").


(* ================================================================== *)
(** ** server.ts: the tool descriptors and the catalogue *)

Module Catalogue.

(** [{type: t}] and [{type: t, description: d}]. *)
Definition typed (t : string) : value := obj [("type", VStr t)].

Definition described (t d : string) : value :=
  obj [("type", VStr t); ("description", VStr d)].

(** A [Tool]: its name, its description and the schema of its input, an
    object with the given properties of which [required] must be there. *)
Definition tool (name description : string)
  (properties : list (string * value)) (required : list string) : value :=
  obj [("name", VStr name);
       ("description", VStr description);
       ("inputSchema",
        obj [("type", VStr "object");
             ("properties", obj properties);
             ("required", VArray (map VStr required))])].

Definition OPEN_BROWSER_TOOL : value :=
  tool "openBrowser" "Launch a new browser instance"
    [("headless", typed "boolean"); ("debug", typed "boolean")] [].

Definition NAVIGATE_TOOL : value :=
  tool "navigate" "Navigate to a URL" [("url", typed "string")] ["url"].

Definition TYPE_TOOL : value :=
  tool "type" "Type text into an element"
    [("selector", typed "string"); ("text", typed "string")]
    ["selector"; "text"].

Definition CLICK_TOOL : value :=
  tool "click" "Click an element" [("selector", typed "string")] ["selector"].

Definition MOVE_MOUSE_TOOL : value :=
  tool "moveMouse" "Move mouse to coordinates"
    [("x", typed "number"); ("y", typed "number")] ["x"; "y"].

Definition SCREENSHOT_TOOL : value :=
  tool "screenshot" "Take a screenshot"
    [("path", typed "string");
     ("type", obj [("type", VStr "string");
                   ("enum", VArray [VStr "viewport"; VStr "element";
                                    VStr "page"])]);
     ("selector", typed "string")]
    ["path"].

Definition GET_PAGE_SOURCE_TOOL : value :=
  tool "getPageSource" "Get the HTML source code of the current page" [] [].

Definition GET_PAGE_TEXT_TOOL : value :=
  tool "getPageText" "Get the text content of the current page" [] [].

Definition GET_PAGE_TITLE_TOOL : value :=
  tool "getPageTitle" "Get the title of the current page" [] [].

Definition GET_PAGE_URL_TOOL : value :=
  tool "getPageUrl" "Get the URL of the current page" [] [].

Definition GET_SCRIPTS_TOOL : value :=
  tool "getScripts" "Get all JavaScript code from the current page" [] [].

Definition GET_STYLESHEETS_TOOL : value :=
  tool "getStylesheets" "Get all CSS stylesheets from the current page" [] [].

Definition GET_META_TAGS_TOOL : value :=
  tool "getMetaTags" "Get all meta tags from the current page" [] [].

Definition GET_LINKS_TOOL : value :=
  tool "getLinks" "Get all links from the current page" [] [].

Definition GET_IMAGES_TOOL : value :=
  tool "getImages" "Get all images from the current page" [] [].

Definition GET_FORMS_TOOL : value :=
  tool "getForms" "Get all forms from the current page" [] [].

Definition GET_ELEMENT_CONTENT_TOOL : value :=
  tool "getElementContent"
    "Get the HTML and text content of a specific element"
    [("selector", typed "string")] ["selector"].

Definition EXECUTE_JAVASCRIPT_TOOL : value :=
  tool "executeJavaScript"
    "Execute arbitrary JavaScript code on the current page and return the result"
    [("script",
      described "string"
        "The JavaScript code to execute on the page. Can be expressions or statements.")]
    ["script"].

Definition SCROLL_TOOL : value :=
  tool "scroll" "Scroll the page by specified amounts with enhanced feedback"
    [("x", described "number"
             "Horizontal scroll amount in pixels (positive = right, negative = left)");
     ("y", described "number"
             "Vertical scroll amount in pixels (positive = down, negative = up)");
     ("smooth", described "boolean"
                  "Whether to use smooth scrolling animation (default: false)")]
    ["x"; "y"].

Definition GET_ELEMENT_HIERARCHY_TOOL : value :=
  tool "getElementHierarchy"
    "Get the hierarchical structure of page elements with parent-child relationships"
    [("selector", described "string"
                    "CSS selector for root element (default: 'body')");
     ("maxDepth", described "number"
                    "Maximum depth to traverse (-1 for unlimited, default: 3)");
     ("includeText", described "boolean"
                       "Include text content of elements (default: false)");
     ("includeAttributes", described "boolean"
                             "Include element attributes (default: false)")]
    [].

Definition CLOSE_BROWSER_TOOL : value :=
  tool "closeBrowser" "Close the browser" [] [].

(** [const tools], in the order of the object literal. *)
Definition tools : list (jstring * value) :=
  map (fun p => (lit (fst p), snd p))
    [("openBrowser", OPEN_BROWSER_TOOL);
     ("navigate", NAVIGATE_TOOL);
     ("type", TYPE_TOOL);
     ("click", CLICK_TOOL);
     ("moveMouse", MOVE_MOUSE_TOOL);
     ("scroll", SCROLL_TOOL);
     ("screenshot", SCREENSHOT_TOOL);
     ("getPageSource", GET_PAGE_SOURCE_TOOL);
     ("getPageText", GET_PAGE_TEXT_TOOL);
     ("getPageTitle", GET_PAGE_TITLE_TOOL);
     ("getPageUrl", GET_PAGE_URL_TOOL);
     ("getScripts", GET_SCRIPTS_TOOL);
     ("getStylesheets", GET_STYLESHEETS_TOOL);
     ("getMetaTags", GET_META_TAGS_TOOL);
     ("getLinks", GET_LINKS_TOOL);
     ("getImages", GET_IMAGES_TOOL);
     ("getForms", GET_FORMS_TOOL);
     ("getElementContent", GET_ELEMENT_CONTENT_TOOL);
     ("getElementHierarchy", GET_ELEMENT_HIERARCHY_TOOL);
     ("executeJavaScript", EXECUTE_JAVASCRIPT_TOOL);
     ("closeBrowser", CLOSE_BROWSER_TOOL)].

End Catalogue.

(** The names a descriptor's schema lists as required. *)
Definition required_of (descriptor : value) : list value :=
  match field (field descriptor "inputSchema") "required" with
  | VArray names => names
  | _ => []
  end.


(* ================================================================== *)
(** ** controllers/playwright.ts: class PlaywrightController *)

Module Controller.

(** What a [try] block of the class ends with when it throws: an Error, its
    own or one Playwright rejects with, of which only the message is read,
    or a TypeError of the runtime. *)
Inductive raised : Type :=
| Failed (message : jstring)
| TypeError (e : engine_error).

Set Implicit Arguments.

Section Class.

(** Playwright as far as the class uses it: the handles of a browser, a
    context, a page and an element, the world they live in, and the calls
    made on them.  A call resolves or rejects with an Error.  The functions
    handed to [page.evaluate] run in the page: each is a call of its own. *)
Variables Browser BrowserContext Page ElementHandle Ext : Type.

Variable engine_message : engine_error -> jstring.

Definition Api (A : Type) : Type := Ext -> (A + jstring) * Ext.

Record PlaywrightApi := {
  launch : value -> Api Browser;              (* chromium.launch({headless, args: ['--no-sandbox']}) *)
  isConnected : Browser -> Ext -> bool;       (* browser.isConnected() *)
  newContext : Browser -> Api BrowserContext; (* a viewport of 1280 by 720 *)
  newPage : BrowserContext -> Api Page;
  close_page : Page -> Api unit;
  close_context : BrowserContext -> Api unit;
  close_browser : Browser -> Api unit;
  goto : Page -> value -> Api unit;
  click_on : Page -> value -> Api unit;                   (* page.click(selector) *)
  mouse_click : Page -> value -> value -> Api unit;       (* page.mouse.click(x, y) *)
  type_into : Page -> value -> value -> Api unit;         (* page.type(selector, text) *)
  mouse_move : Page -> value -> value -> Api unit;        (* page.mouse.move(x, y) *)
  scroll_position : Page -> Api Playwright.ScrollPosition; (* window.scrollX, window.scrollY *)
  scroll_by : Page -> value -> value -> value -> Api unit; (* window.scrollBy, with x, y and smooth *)
  waitForTimeout : Page -> nat -> Api unit;
  query : Page -> value -> Api (option ElementHandle);    (* page.$(selector) *)
  element_screenshot : ElementHandle -> value -> Api unit; (* the path *)
  page_screenshot : Page -> value -> bool -> Api unit;    (* the path, fullPage *)
  content : Page -> Api jstring;
  innerText : Page -> string -> Api jstring;
  title : Page -> Api jstring;
  url : Page -> Api jstring;
  scripts_of : Page -> Api (list jstring);
  stylesheets_of : Page -> Api (list jstring);
  metaTags_of : Page -> Api (list value);
  links_of : Page -> Api (list value);
  images_of : Page -> Api (list value);
  forms_of : Page -> Api (list value);
  content_of : Page -> value -> Api value;                (* the selector *)
  run_script : Page -> value -> Api value;                (* the script *)
  hierarchy_of : Page -> value -> value -> value -> value -> Api value
}.

Variable playwright : PlaywrightApi.

(** [BrowserState], and the object itself. *)
Record BrowserState := {
  browser : option Browser;
  context : option BrowserContext;
  page : option Page;
  debug : value
}.

Record Position := { x : value; y : value }.

Record PlaywrightController := {
  state : BrowserState;
  currentMousePosition : Position
}.

(** [new PlaywrightController()]. *)
Definition new_PlaywrightController : PlaywrightController :=
  {| state := {| browser := None; context := None; page := None;
                 debug := VBool false |};
     currentMousePosition := {| x := VNat 0; y := VNat 0 |} |}.

(** The object, the lines written to standard output, what [console.error]
    was given (the label and the error), and the world of the browser. *)
Record World := {
  this : PlaywrightController;
  stdout : list jstring;
  stderr : list (string * raised);
  world : Ext
}.

Definition Body (A : Type) : Type := World -> (A + raised) * World.

Definition pure {A : Type} (a : A) : Body A := fun w => (inl a, w).

Definition and_then {A B : Type} (m : Body A) (f : A -> Body B) : Body B :=
  fun w =>
    match m w with
    | (inl a, w') => f a w'
    | (inr e, w') => (inr e, w')
    end.

Definition raise {A : Type} (e : raised) : Body A := fun w => (inr e, w).

Notation "x <~ m ;; k" := (and_then m (fun x => k))
  (at level 61, m at next level, right associativity).

(** The property read [v.k] in a [try] block. *)
Definition read (v : value) (k : string) : Body value :=
  fun w =>
    match v with
    | VUndefined | VNull => (inr (TypeError (CannotRead v (lit k))), w)
    | _ => (inl (field v k), w)
    end.

(** An awaited call of Playwright. *)
Definition await {A : Type} (call : Api A) : Body A :=
  fun w =>
    match call (world w) with
    | (inl a, ext) =>
        (inl a, {| this := this w; stdout := stdout w; stderr := stderr w;
                   world := ext |})
    | (inr m, ext) =>
        (inr (Failed m),
         {| this := this w; stdout := stdout w; stderr := stderr w;
            world := ext |})
    end.

Definition get_state : Body BrowserState := fun w => (inl (state (this w)), w).

Definition set_state (s : BrowserState) : Body unit :=
  fun w =>
    (inl tt,
     {| this := {| state := s;
                   currentMousePosition := currentMousePosition (this w) |};
        stdout := stdout w; stderr := stderr w; world := world w |}).

Definition get_position : Body Position :=
  fun w => (inl (currentMousePosition (this w)), w).

Definition set_position (p : Position) : Body unit :=
  fun w =>
    (inl tt,
     {| this := {| state := state (this w); currentMousePosition := p |};
        stdout := stdout w; stderr := stderr w; world := world w |}).

(** One argument of [log] as text: [JSON.stringify] for what [typeof] calls
    an object, [String] for the rest. *)
Definition log_part (arg : value) : jstring :=
  match arg with
  | VNull | VArray _ | VObject _ =>
      match JSON.stringify arg with
      | Some s => s
      | None => []
      end
  | _ =>
      match to_string arg with
      | Some s => s
      | None => []
      end
  end.

(** [log(...args)]. *)
Definition log (args : list value) : Body unit :=
  fun w =>
    if truthy (debug (state (this w))) then
      (inl tt,
       {| this := this w;
          stdout := stdout w ++
            [written (obj [("type", VStr "debug");
                           ("message",
                            VString (join (lit " ") (map log_part args)))])];
          stderr := stderr w; world := world w |})
    else (inl tt, w).

(** [isInitialized()]. *)
Definition isInitialized (w : World) : bool :=
  match browser (state (this w)), context (state (this w)),
        page (state (this w)) with
  | Some b, Some _, Some _ => isConnected playwright b (world w)
  | _, _, _ => false
  end.

(** A method: its [try] block, and the [catch] that reports the error with
    [console.error] and throws a BrowserError in its place. *)
Definition method {A : Type} (label : string)
  (failure : raised -> Index.BrowserError) (body : Body A)
  : Playwright.Op World A :=
  fun w =>
    match body w with
    | (inl a, w') => (inl a, w')
    | (inr e, w') =>
        (inr (failure e),
         {| this := this w'; stdout := stdout w';
            stderr := stderr w' ++ [(label, e)]; world := world w' |})
    end.

Definition BrowserError (message suggestion : string) : Index.BrowserError :=
  {| Index.message := lit message; Index.suggestion := Some (lit suggestion) |}.

(** The default of a parameter. *)
Definition default_to (d v : value) : value :=
  if is_undefined v then d else v.

(** The guard most methods start with. *)
Definition need_browser : Body unit :=
  fun w =>
    if isInitialized w then (inl tt, w)
    else (inr (Failed (lit "Browser not initialized")), w).

(** The guard of the methods that also test the page, which they then use
    without the optional chain. *)
Definition need_page : Body Page :=
  fun w =>
    match page (state (this w)) with
    | Some p =>
        if isInitialized w then (inl p, w)
        else (inr (Failed (lit "Browser not initialized")), w)
    | None => (inr (Failed (lit "Browser not initialized")), w)
    end.

(** [await this.state.page?.call(...)]. *)
Definition on_page {A : Type} (call : Page -> Api A) : Body (option A) :=
  s <~ get_state ;;
  match page s with
  | Some p => a <~ await (call p) ;; pure (Some a)
  | None => pure None
  end.

(** [error?.message || 'Unknown error'] on what a [try] block threw. *)
Definition message_of (e : raised) : jstring :=
  let m := match e with
           | Failed m => m
           | TypeError e => engine_message e
           end in
  match m with
  | [] => lit "Unknown error"
  | _ => m
  end.

Definition openBrowser (headless debug' : value) : Playwright.Op World unit :=
  let headless := default_to (VBool false) headless in
  let debug' := default_to (VBool false) debug' in
  method "Browser launch error:"
    (fun e =>
       {| Index.message := lit "Failed to launch browser";
          Index.suggestion :=
            Some (lit "Technical details: " ++ message_of e) |})
    (s <~ get_state ;;
     _ <~ set_state {| browser := browser s; context := context s;
                       page := page s; debug := debug' |} ;;
     _ <~ log [VStr "Attempting to launch browser"] ;;
     running <~ (fun w =>
                   (inl match browser (state (this w)) with
                        | Some b => isConnected playwright b (world w)
                        | None => false
                        end, w)) ;;
     if (running : bool) then log [VStr "Browser already running"]
     else
       _ <~ log [VStr "Launching new browser instance";
                 obj [("headless", headless)]] ;;
       b <~ await (launch playwright headless) ;;
       s <~ get_state ;;
       _ <~ set_state {| browser := Some b; context := context s;
                         page := page s; debug := debug s |} ;;
       _ <~ log [VStr "Creating browser context"] ;;
       c <~ await (newContext playwright b) ;;
       s <~ get_state ;;
       _ <~ set_state {| browser := browser s; context := Some c;
                         page := page s; debug := debug s |} ;;
       _ <~ log [VStr "Creating new page"] ;;
       p <~ await (newPage playwright c) ;;
       s <~ get_state ;;
       _ <~ set_state {| browser := browser s; context := context s;
                         page := Some p; debug := debug s |} ;;
       log [VStr "Browser successfully launched"]).

(** [await handle?.close()]. *)
Definition close_if {H : Type} (handle : option H) (close : H -> Api unit)
  : Body unit :=
  match handle with
  | Some h => await (close h)
  | None => pure tt
  end.

Definition closeBrowser : Playwright.Op World unit :=
  method "Browser close error:"
    (fun _ => BrowserError "Failed to close browser"
                "The browser might have already been closed")
    (_ <~ log [VStr "Closing browser"] ;;
     s <~ get_state ;;
     _ <~ close_if (page s) (close_page playwright) ;;
     s <~ get_state ;;
     _ <~ close_if (context s) (close_context playwright) ;;
     s <~ get_state ;;
     _ <~ close_if (browser s) (close_browser playwright) ;;
     _ <~ set_state {| browser := None; context := None; page := None;
                       debug := VBool false |} ;;
     log [VStr "Browser closed"]).

Definition navigate (url_ : value) : Playwright.Op World unit :=
  method "Navigation error:"
    (fun _ => BrowserError "Failed to navigate"
                "Check if the URL is valid and accessible")
    (_ <~ need_browser ;;
     _ <~ log [VStr "Navigating to"; url_] ;;
     _ <~ on_page (fun p => goto playwright p url_) ;;
     log [VStr "Navigation complete"]).

Definition click (selector : value) : Playwright.Op World unit :=
  method "Click error:"
    (fun _ =>
       BrowserError "Failed to click"
         (if truthy selector then "Check if the element exists and is visible"
          else "Check if mouse position is valid"))
    (p <~ need_page ;;
     _ <~ (if truthy selector then
             _ <~ log [VStr "Clicking element"; selector] ;;
             await (click_on playwright p selector)
           else
             at_ <~ get_position ;;
             _ <~ log [VStr "Clicking at position";
                       obj [("x", x at_); ("y", y at_)]] ;;
             await (mouse_click playwright p (x at_) (y at_))) ;;
     log [VStr "Click complete"]).

Definition type (selector text : value) : Playwright.Op World unit :=
  method "Type error:"
    (fun _ => BrowserError "Failed to type text"
                "Check if the input element exists and is editable")
    (_ <~ need_browser ;;
     _ <~ log [VStr "Typing into element";
               obj [("selector", selector); ("text", text)]] ;;
     _ <~ on_page (fun p => type_into playwright p selector text) ;;
     log [VStr "Type complete"]).

Definition moveMouse (x_ y_ : value) : Playwright.Op World unit :=
  method "Mouse move error:"
    (fun _ => BrowserError "Failed to move mouse"
                "Check if coordinates are within viewport")
    (_ <~ need_browser ;;
     _ <~ log [VStr "Moving mouse to"; obj [("x", x_); ("y", y_)]] ;;
     _ <~ on_page (fun p => mouse_move playwright p x_ y_) ;;
     _ <~ set_position {| x := x_; y := y_ |} ;;
     log [VStr "Mouse move complete"]).

Definition scroll (x_ y_ smooth : value)
  : Playwright.Op World Playwright.ScrollResult :=
  let smooth := default_to (VBool false) smooth in
  method "Scroll error:"
    (fun _ => BrowserError "Failed to scroll" "Check if scroll values are valid")
    (p <~ need_page ;;
     _ <~ log [VStr "Scrolling";
               obj [("x", x_); ("y", y_); ("smooth", smooth)]] ;;
     beforeScroll <~ await (scroll_position playwright p) ;;
     _ <~ await (scroll_by playwright p x_ y_ smooth) ;;
     _ <~ await (waitForTimeout playwright p
                   (if truthy smooth then 500 else 100)) ;;
     afterScroll <~ await (scroll_position playwright p) ;;
     _ <~ log [VStr "Scroll complete";
               obj [("before", position beforeScroll);
                    ("after", position afterScroll)]] ;;
     pure {| Playwright.before := beforeScroll;
             Playwright.after := afterScroll |}).

Definition screenshot (options : value) : Playwright.Op World unit :=
  method "Screenshot error:"
    (fun _ =>
       BrowserError "Failed to take screenshot"
         "Check if the path is writable and element exists (if capturing element)")
    (p <~ need_page ;;
     _ <~ log [VStr "Taking screenshot"; options] ;;
     kind <~ read options "type" ;;
     selector <~ (if is_str kind "element" then read options "selector"
                  else pure VUndefined) ;;
     _ <~ (if is_str kind "element" && truthy selector then
             element <~ await (query playwright p selector) ;;
             match element with
             | None => raise (Failed (lit "Element not found"))
             | Some element =>
                 path <~ read options "path" ;;
                 await (element_screenshot playwright element path)
             end
           else if is_str kind "viewport" then
             path <~ read options "path" ;;
             await (page_screenshot playwright p path false)
           else
             path <~ read options "path" ;;
             await (page_screenshot playwright p path true)) ;;
     path <~ read options "path" ;;
     log [VStr "Screenshot saved to"; path]).

(** The getters of a string: [value || '']. *)
Definition text_or_empty (text : option jstring) : jstring :=
  match text with
  | Some s => s
  | None => []
  end.

Definition getPageSource : Playwright.Op World jstring :=
  method "Get page source error:"
    (fun _ => BrowserError "Failed to get page source"
                "Check if the page is loaded")
    (_ <~ need_browser ;;
     _ <~ log [VStr "Getting page source"] ;;
     content_ <~ on_page (content playwright) ;;
     _ <~ log [VStr "Page source retrieved"] ;;
     pure (text_or_empty content_)).

Definition getPageText : Playwright.Op World jstring :=
  method "Get page text error:"
    (fun _ => BrowserError "Failed to get page text"
                "Check if the page is loaded")
    (_ <~ need_browser ;;
     _ <~ log [VStr "Getting page text content"] ;;
     text <~ on_page (fun p => innerText playwright p "body") ;;
     _ <~ log [VStr "Page text retrieved"] ;;
     pure (text_or_empty text)).

(** A string that may be undefined, as an argument of [log]. *)
Definition optional_string (s : option jstring) : value :=
  match s with
  | Some s => VString s
  | None => VUndefined
  end.

Definition getPageTitle : Playwright.Op World jstring :=
  method "Get page title error:"
    (fun _ => BrowserError "Failed to get page title"
                "Check if the page is loaded")
    (_ <~ need_browser ;;
     _ <~ log [VStr "Getting page title"] ;;
     title_ <~ on_page (title playwright) ;;
     _ <~ log [VStr "Page title retrieved:"; optional_string title_] ;;
     pure (text_or_empty title_)).

Definition getPageUrl : Playwright.Op World jstring :=
  method "Get page URL error:"
    (fun _ => BrowserError "Failed to get page URL"
                "Check if the page is loaded")
    (_ <~ need_browser ;;
     _ <~ log [VStr "Getting page URL"] ;;
     url_ <~ on_page (url playwright) ;;
     _ <~ log [VStr "Page URL retrieved:"; optional_string url_] ;;
     pure (text_or_empty url_)).

(** [list?.length], and [list || []]. *)
Definition optional_length {A : Type} (l : option (list A)) : value :=
  match l with
  | Some l => VNat (length l)
  | None => VUndefined
  end.

Definition list_or_empty {A : Type} (l : option (list A)) : list A :=
  match l with
  | Some l => l
  | None => []
  end.

Definition getScripts : Playwright.Op World (list jstring) :=
  method "Get scripts error:"
    (fun _ => BrowserError "Failed to get scripts" "Check if the page is loaded")
    (_ <~ need_browser ;;
     _ <~ log [VStr "Getting page scripts"] ;;
     scripts <~ on_page (scripts_of playwright) ;;
     _ <~ log [VStr "Scripts retrieved:"; optional_length scripts] ;;
     pure (list_or_empty scripts)).

Definition getStylesheets : Playwright.Op World (list jstring) :=
  method "Get stylesheets error:"
    (fun _ => BrowserError "Failed to get stylesheets"
                "Check if the page is loaded")
    (_ <~ need_browser ;;
     _ <~ log [VStr "Getting page stylesheets"] ;;
     stylesheets <~ on_page (stylesheets_of playwright) ;;
     _ <~ log [VStr "Stylesheets retrieved:"; optional_length stylesheets] ;;
     pure (list_or_empty stylesheets)).

Definition getMetaTags : Playwright.Op World value :=
  method "Get meta tags error:"
    (fun _ => BrowserError "Failed to get meta tags"
                "Check if the page is loaded")
    (_ <~ need_browser ;;
     _ <~ log [VStr "Getting meta tags"] ;;
     metaTags <~ on_page (metaTags_of playwright) ;;
     _ <~ log [VStr "Meta tags retrieved:"; optional_length metaTags] ;;
     pure (VArray (list_or_empty metaTags))).

Definition getLinks : Playwright.Op World value :=
  method "Get links error:"
    (fun _ => BrowserError "Failed to get links" "Check if the page is loaded")
    (_ <~ need_browser ;;
     _ <~ log [VStr "Getting page links"] ;;
     links <~ on_page (links_of playwright) ;;
     _ <~ log [VStr "Links retrieved:"; optional_length links] ;;
     pure (VArray (list_or_empty links))).

Definition getImages : Playwright.Op World value :=
  method "Get images error:"
    (fun _ => BrowserError "Failed to get images" "Check if the page is loaded")
    (_ <~ need_browser ;;
     _ <~ log [VStr "Getting page images"] ;;
     images <~ on_page (images_of playwright) ;;
     _ <~ log [VStr "Images retrieved:"; optional_length images] ;;
     pure (VArray (list_or_empty images))).

Definition getForms : Playwright.Op World value :=
  method "Get forms error:"
    (fun _ => BrowserError "Failed to get forms" "Check if the page is loaded")
    (_ <~ need_browser ;;
     _ <~ log [VStr "Getting page forms"] ;;
     forms <~ on_page (forms_of playwright) ;;
     _ <~ log [VStr "Forms retrieved:"; optional_length forms] ;;
     pure (VArray (list_or_empty forms))).

(** What [page?.evaluate] gave, undefined without a page. *)
Definition optional_value (v : option value) : value :=
  match v with
  | Some v => v
  | None => VUndefined
  end.

Definition getElementContent (selector : value) : Playwright.Op World value :=
  method "Get element content error:"
    (fun _ => BrowserError "Failed to get element content"
                "Check if the element exists")
    (_ <~ need_browser ;;
     _ <~ log [VStr "Getting element content for selector:"; selector] ;;
     content_ <~ on_page (fun p => content_of playwright p selector) ;;
     _ <~ log [VStr "Element content retrieved"] ;;
     pure (or_else (optional_value content_)
             (obj [("html", VStr ""); ("text", VStr "")]))).

Definition executeJavaScript (script : value) : Playwright.Op World value :=
  method "Execute JavaScript error:"
    (fun _ => BrowserError "Failed to execute JavaScript"
                "Check if the JavaScript syntax is valid")
    (_ <~ need_browser ;;
     _ <~ log [VStr "Executing JavaScript:"; script] ;;
     result <~ on_page (fun p => run_script playwright p script) ;;
     _ <~ log [VStr "JavaScript execution completed:"; optional_value result] ;;
     pure (optional_value result)).

Definition getElementHierarchy
  (selector maxDepth includeText includeAttributes : value)
  : Playwright.Op World value :=
  let selector := default_to (VStr "body") selector in
  let maxDepth := default_to (VNat 3) maxDepth in
  let includeText := default_to (VBool false) includeText in
  let includeAttributes := default_to (VBool false) includeAttributes in
  method "Get element hierarchy error:"
    (fun _ => BrowserError "Failed to get element hierarchy"
                "Check if the selector exists")
    (_ <~ need_browser ;;
     _ <~ log [VStr "Getting element hierarchy";
               obj [("selector", selector); ("maxDepth", maxDepth);
                    ("includeText", includeText);
                    ("includeAttributes", includeAttributes)]] ;;
     hierarchy <~ on_page (fun p => hierarchy_of playwright p selector maxDepth
                                      includeText includeAttributes) ;;
     _ <~ log [VStr "Element hierarchy retrieved"] ;;
     pure (optional_value hierarchy)).

(** [export const playwrightController], as server.ts calls it. *)
Definition playwrightController : Playwright.PlaywrightController World :=
  {| Playwright.openBrowser := openBrowser;
     Playwright.closeBrowser := closeBrowser;
     Playwright.navigate := navigate;
     Playwright.click := click;
     Playwright.type := type;
     Playwright.moveMouse := moveMouse;
     Playwright.scroll := scroll;
     Playwright.screenshot := screenshot;
     Playwright.getPageSource := getPageSource;
     Playwright.getPageText := getPageText;
     Playwright.getPageTitle := getPageTitle;
     Playwright.getPageUrl := getPageUrl;
     Playwright.getScripts := getScripts;
     Playwright.getStylesheets := getStylesheets;
     Playwright.getMetaTags := getMetaTags;
     Playwright.getLinks := getLinks;
     Playwright.getImages := getImages;
     Playwright.getForms := getForms;
     Playwright.getElementContent := getElementContent;
     Playwright.executeJavaScript := executeJavaScript;
     Playwright.getElementHierarchy := getElementHierarchy |}.

(** The world at start-up. *)
Definition initial (ext : Ext) : World :=
  {| this := new_PlaywrightController; stdout := []; stderr := [];
     world := ext |}.

End Class.

Unset Implicit Arguments.

End Controller.

(** *** Vocabulary of the statements about the controller *)

Set Implicit Arguments.

Section ControllerVocabulary.

Variables Browser BrowserContext Page Ext : Type.

(** [w'] is [w] but for what was given to [console.error]. *)
Definition only_reported (w w' : Controller.World Browser BrowserContext Page Ext)
  : Prop :=
  Controller.this w' = Controller.this w /\
  Controller.stdout w' = Controller.stdout w /\
  Controller.world w' = Controller.world w.

(** A step of the call handler that, from [w], ends with an error result or
    a thrown Error and has done nothing but report. *)
Definition declined (w : Controller.World Browser BrowserContext Page Ext)
  (m : M (Controller.World Browser BrowserContext Page Ext) value) : Prop :=
  match m w with
  | (Normal response, w') =>
      (exists text, response = failure text) /\ only_reported w w'
  | (Abrupt (Thrown _), _) => False
  | (Abrupt _, w') => only_reported w w'
  end.

(** The debug flag is off. *)
Definition debug_off (w : Controller.World Browser BrowserContext Page Ext)
  : bool :=
  negb (truthy (Controller.debug (Controller.state (Controller.this w)))).

(** A step, of a method or of the handler, that started with the debug flag
    off writes nothing to standard output and leaves the flag off. *)
Definition keeps_silence {R : Type}
  (m : Controller.World Browser BrowserContext Page Ext ->
       R * Controller.World Browser BrowserContext Page Ext) : Prop :=
  forall w, debug_off w = true ->
    Controller.stdout (snd (m w)) = Controller.stdout w /\
    debug_off (snd (m w)) = true.

(** The state [closeBrowser] leaves. *)
Definition closed_state : Controller.BrowserState Browser BrowserContext Page :=
  {| Controller.browser := None; Controller.context := None;
     Controller.page := None; Controller.debug := VBool false |}.

End ControllerVocabulary.

Unset Implicit Arguments.

(** *** A browser for the examples *)

Module Stage.

(** The world of the browser counts the calls made to Playwright; the
    handles carry nothing. *)
Definition done {A : Type} (a : A) : Controller.Api nat A :=
  fun n => (inl a, S n).

Definition rejected {A : Type} (message : string) : Controller.Api nat A :=
  fun n => (inr (lit message), S n).

(** Every call resolves, but [newContext] when [contexts] is false; a
    browser once launched stays connected. *)
Definition playwright (contexts : bool)
  : Controller.PlaywrightApi unit unit unit unit nat :=
  {| Controller.launch := fun _ => done tt;
     Controller.isConnected := fun _ _ => true;
     Controller.newContext :=
       fun _ => if contexts then done tt else rejected "Target closed";
     Controller.newPage := fun _ => done tt;
     Controller.close_page := fun _ => done tt;
     Controller.close_context := fun _ => done tt;
     Controller.close_browser := fun _ => done tt;
     Controller.goto := fun _ _ => done tt;
     Controller.click_on := fun _ _ => done tt;
     Controller.mouse_click := fun _ _ _ => done tt;
     Controller.type_into := fun _ _ _ => done tt;
     Controller.mouse_move := fun _ _ _ => done tt;
     Controller.scroll_position :=
       fun _ => done {| Playwright.x := VNat 0; Playwright.y := VNat 0 |};
     Controller.scroll_by := fun _ _ _ _ => done tt;
     Controller.waitForTimeout := fun _ _ => done tt;
     Controller.query := fun _ _ => done (Some tt);
     Controller.element_screenshot := fun _ _ => done tt;
     Controller.page_screenshot := fun _ _ _ => done tt;
     Controller.content := fun _ => done (lit "<html></html>");
     Controller.innerText := fun _ _ => done [];
     Controller.title := fun _ => done (lit "Example");
     Controller.url := fun _ => done (lit "about:blank");
     Controller.scripts_of := fun _ => done [];
     Controller.stylesheets_of := fun _ => done [];
     Controller.metaTags_of := fun _ => done [];
     Controller.links_of := fun _ => done [];
     Controller.images_of := fun _ => done [];
     Controller.forms_of := fun _ => done [];
     Controller.content_of := fun _ _ => done (obj []);
     Controller.run_script := fun _ _ => done VUndefined;
     Controller.hierarchy_of := fun _ _ _ _ _ => done (obj []) |}.

(** The controller of server.ts on that browser, and the world at
    start-up. *)
Definition controller (contexts : bool)
  : Playwright.PlaywrightController (Controller.World unit unit unit nat) :=
  Controller.playwrightController Fixture.wording (playwright contexts).

Definition start : Controller.World unit unit unit nat :=
  Controller.initial unit unit unit 0.

(** The handler of server.ts on that controller. *)
Definition handler (contexts : bool) (name arguments : value)
  : M (Controller.World unit unit unit nat) value :=
  callTool_handler Fixture.wording (fun _ _ => VNat 0) (controller contexts)
    (call_request name arguments).

End Stage.

(* ================================================================== *)
(** ** controllers/playwright.ts: the function [getElementHierarchy] runs in the page *)

(** [n < x] for a count [n] and a number [x], and [x === -1]. *)
Definition digits_Z (ds : list N) : Z :=
  fold_left (fun acc d => (10 * acc + Z.of_N d)%Z) ds 0%Z.

Definition nat_lt_number (n : nat) (x : number) : bool :=
  if negative x then false
  else
    let k := Z.of_nat (length (digits x)) in
    if (k <=? point x)%Z
    then (Z.of_nat n <? digits_Z (digits x) * 10 ^ (point x - k))%Z
    else (Z.of_nat n * 10 ^ (k - point x) <? digits_Z (digits x))%Z.

Definition is_minus_one (x : number) : bool :=
  negative x && (point x =? 1)%Z &&
  match digits x with
  | [d] => N.eqb d 1
  | _ => false
  end.

Module Hierarchy.

(** An element of the document, as far as the function reads it: its tag
    name, id and class name, its attributes by name, and its child nodes in
    document order, a text node by its data and a child element by itself.
    Nodes of other kinds (comments) are read by nothing here. *)
Inductive Element : Type :=
| element (tagName id className : jstring)
    (attributes : list (jstring * jstring))
    (childNodes : list (jstring + Element)).

Definition tagName (e : Element) : jstring :=
  match e with element t _ _ _ _ => t end.

Definition id (e : Element) : jstring :=
  match e with element _ i _ _ _ => i end.

Definition className (e : Element) : jstring :=
  match e with element _ _ c _ _ => c end.

Definition attributes (e : Element) : list (jstring * jstring) :=
  match e with element _ _ _ a _ => a end.

Definition childNodes (e : Element) : list (jstring + Element) :=
  match e with element _ _ _ _ nodes => nodes end.

(** [element.children]: the child nodes that are elements. *)
Fixpoint elements_of (nodes : list (jstring + Element)) : list Element :=
  match nodes with
  | [] => []
  | inl _ :: rest => elements_of rest
  | inr child :: rest => child :: elements_of rest
  end.


(** The data of the child nodes that are text nodes. *)
Fixpoint texts_of (nodes : list (jstring + Element)) : list jstring :=
  match nodes with
  | [] => []
  | inl data :: rest => data :: texts_of rest
  | inr _ :: rest => texts_of rest
  end.

(** [element.textContent]: the text of all descendants. *)
Fixpoint textContent (e : Element) : jstring :=
  match e with
  | element _ _ _ _ nodes =>
      (fix all (nodes : list (jstring + Element)) : jstring :=
         match nodes with
         | [] => []
         | inl data :: rest => data ++ all rest
         | inr child :: rest => textContent child ++ all rest
         end) nodes
  end.

(** [s || undefined]. *)
Definition or_undefined (s : jstring) : value :=
  match s with
  | [] => VUndefined
  | _ => VString s
  end.

(** [object[name] = v] on a plain object: the setter of [__proto__] ignores
    a string, any other name is defined as an own property. *)
Definition set_property (name : jstring) (v : value)
  (ps : list (jstring * value)) : list (jstring * value) :=
  if str_eqb name (lit "__proto__") then ps else JSON.define_prop name v ps.

Section Page.

(** [String.prototype.toLowerCase]. *)
Variable toLowerCase : jstring -> jstring.

(** The arguments of the function, after the defaults. *)
Variable maxDepth : number.
Variables includeText includeAttributes : value.

(** The text of the text nodes directly under the element, trimmed, the
    empty ones left out, joined by a blank. *)
Definition directText (e : Element) : jstring :=
  join (lit " ")
    (filter (fun text => truthy (VString text))
       (map trim (texts_of (childNodes e)))).

(** The loop over [element.attributes]. *)
Definition attributes_object (attrs : list (jstring * jstring)) : value :=
  VObject
    (fold_left
       (fun acc attr =>
          if negb (str_eqb (fst attr) (lit "id")) &&
             negb (str_eqb (fst attr) (lit "class"))
          then set_property (fst attr) (VString (snd attr)) acc
          else acc)
       attrs []).

(** The properties [getElementInfo] adds after the four it starts with. *)
Definition more_info (e : Element) : list (jstring * value) :=
  (if truthy includeText && truthy (VString (textContent e)) then
     match directText e with
     | [] => []
     | text => [(lit "text", VString text)]
     end
   else []) ++
  (if truthy includeAttributes && (0 <? length (attributes e))%nat then
     [(lit "attributes", attributes_object (attributes e))]
   else []).

(** [getElementInfo(element)], with [children] as given. *)
Definition info_with (e : Element) (kids : value) : list (jstring * value) :=
  [(lit "tagName", VString (toLowerCase (tagName e)));
   (lit "id", or_undefined (id e));
   (lit "className", or_undefined (className e));
   (lit "children", kids)] ++ more_info e.

Definition getElementInfo (e : Element) : list (jstring * value) :=
  info_with e (VArray []).

(** [currentDepth < maxDepth || maxDepth === -1]. *)
Definition descends (currentDepth : nat) : bool :=
  nat_lt_number currentDepth maxDepth || is_minus_one maxDepth.

(** [traverseElement(element, currentDepth)]. *)
Fixpoint traverseElement (e : Element) (currentDepth : nat) : value :=
  match e with
  | element _ _ _ _ nodes =>
      let elementInfo := getElementInfo e in
      if descends currentDepth then
        VObject
          (JSON.replace_prop (lit "children")
             (VArray
                ((fix each (nodes : list (jstring + Element)) : list value :=
                    match nodes with
                    | [] => []
                    | inl _ :: rest => each rest
                    | inr child :: rest =>
                        traverseElement child (S currentDepth) :: each rest
                    end) nodes))
             elementInfo)
      else if (0 <? length (elements_of nodes))%nat then
        VObject (elementInfo ++
                 [(lit "childrenCount", VNat (length (elements_of nodes)))])
      else VObject elementInfo
  end.

(** The function itself: [rootElement] is what [document.querySelector]
    found for the selector. *)
Definition hierarchy (selector : jstring) (rootElement : option Element)
  : jstring + value :=
  match rootElement with
  | None => inl (lit "Element not found: " ++ selector)
  | Some root => inr (traverseElement root 0)
  end.

End Page.



End Hierarchy.



(** *** A document for the examples *)

Module Page.


Definition item (text : string) : Hierarchy.Element :=
  Hierarchy.element (lit "LI") [] [] [] [inl (lit text)].

(** A body that holds a division with a paragraph and a list of two
    items. *)
Definition body : Hierarchy.Element :=
  Hierarchy.element (lit "BODY") [] [] []
    [inl (lit " ");
     inr (Hierarchy.element (lit "DIV") (lit "app") (lit "main")
            [(lit "id", lit "app"); (lit "class", lit "main");
             (lit "data-x", lit "1")]
            [inr (Hierarchy.element (lit "P") [] [] [] [inl (lit " Hello ")]);
             inr (Hierarchy.element (lit "UL") [] [] []
                    [inr (item "one"); inl (lit " "); inr (item "two")])])].

End Page.

(* ================================================================== *)
(** * Properties *)

(** ** Strings and values *)





(** An object always serializes. *)
Lemma written_object (ps : list (jstring * value)) :
  exists line, JSON.stringify (VObject ps) = Some line /\
               written (VObject ps) = line.
Proof.
  unfold written, JSON.stringify. simpl. eauto.
Qed.

(** ** The built-ins on known cases *)

Example parse_request :
  JSON.parse (qlit "{'jsonrpc':'2.0','id':1,'method':'tools/list','params':{}}") =
    Some (obj [("jsonrpc", VStr "2.0"); ("id", VNat 1);
               ("method", VStr "tools/list"); ("params", obj [])]).
Proof. vm_compute. reflexivity. Qed.

(** A repeated name keeps its place and takes the last value; index names
    come first, in ascending order. *)
Example parse_property_order :
  JSON.parse (qlit "{'b':1,'10':2,'a':3,'9':4,'b':5}") =
    Some (obj [("9", VNat 4); ("10", VNat 2); ("b", VNat 5); ("a", VNat 3)]).
Proof. vm_compute. reflexivity. Qed.

Example parse_escapes :
  JSON.parse (qlit "['\u0041\n\/', 1.50e2, -0.0025, true, null]") =
    Some (VArray [VString [65; 10; 47]%N; VNat 150;
                  VNumber {| negative := true; digits := [2; 5]%N; point := -2 |};
                  VBool true; VNull]).
Proof. vm_compute. reflexivity. Qed.

Example parse_rejects :
  map JSON.parse
    [qlit "{not json"; qlit ""; qlit "[1,]"; qlit "{'a':1,}"; qlit "01";
     qlit "1 2"; qlit "'a"; qlit "nul"; qlit "{'a' 1}"; qlit "[1}"] =
  repeat None 10.
Proof. vm_compute. reflexivity. Qed.

(** A property whose value is undefined is left out; an undefined element is
    written as null. *)
Example stringify_undefined :
  JSON.stringify (obj [("a", VUndefined); ("b", VArray [VUndefined; VNat 1]);
                       ("c", VStr "x")]) =
    Some (qlit "{'b':[null,1],'c':'x'}").
Proof. vm_compute. reflexivity. Qed.

Example stringify_numbers :
  map number_to_string
    [number_of_Z (-32603); mk_number false [1; 5]%N (-2);
     mk_number false [1]%N 22; mk_number true [2; 5]%N (-7)] =
  [lit "-32603"; lit "0.0015"; lit "1e+21"; lit "-2.5e-8"].
Proof. vm_compute. reflexivity. Qed.

Example stringify_indented_object :
  JSON.stringify_indented (obj [("a", VArray [VNat 1]); ("b", obj [])]) =
    Some (qlit "{" ++ [10%N] ++ qlit "  'a': [" ++ [10%N] ++ qlit "    1" ++
          [10%N] ++ qlit "  ]," ++ [10%N] ++ qlit "  'b': {}" ++ [10%N] ++
          qlit "}").
Proof. vm_compute. reflexivity. Qed.

Example to_string_cases :
  map to_string
    [VUndefined; VStr "foo"; VNat 42; VArray [VNat 1; VNull; VStr "a"];
     obj [("a", VNat 1)]; obj [("toString", VNat 0)]] =
  [Some (lit "undefined"); Some (lit "foo"); Some (lit "42");
   Some (lit "1,,a"); Some (lit "[object Object]"); None].
Proof. vm_compute. reflexivity. Qed.

(** ** The dispatcher *)

Section TransportFacts.

Variable St : Type.
Variable engine_message : engine_error -> jstring.

Ltac enter :=
  unfold handleInput, try_catch, dispatch, bind, JSON_parse, lift, ret.





(** C3, as amended.  A line that parses to an object whose method is none of
    the four and whose [command] is absent (or falsy) reaches no branch:
    [handleInput] resolves and nothing is written, no error envelope
    either. *)
Theorem unrecognized_method_is_dropped :
  forall (this : Server St) (input : jstring) (props : list (jstring * value))
         (w : world St),
    JSON.parse input = Some (VObject props) ->
    recognized (lookup (lit "method") props) = false ->
    truthy (lookup (lit "command") props) = false ->
    handleInput engine_message this input w = (Normal tt, w).
Proof.
  intros this input props w Hparse Hmethod Hcommand.
  unfold recognized, protocol_methods in Hmethod. simpl in Hmethod.
  repeat (apply orb_false_iff in Hmethod as [? Hmethod]).
  enter. rewrite Hparse. simpl.
  repeat match goal with H : is_str _ _ = false |- _ => rewrite H; clear H end.
  rewrite Hcommand. reflexivity.
Qed.


(** X1.  What a line that does not parse does: with the id's name in double quotes
    somewhere in it, the [catch] block parses it again, the promise is
    rejected with that second SyntaxError and nothing is written; without, one
    error envelope with a null id is written. *)
Lemma parse_failure_outcome :
  forall (this : Server St) (input : jstring) (w : world St),
    JSON.parse input = None ->
    handleInput engine_message this input w =
      if includes input (qlit "'id'") then
        (Abrupt (Engine (SyntaxErrorIn input)), w)
      else
        (Normal tt,
         {| stdout := stdout w ++
              [written (error_envelope VNull
                          (engine_message (SyntaxErrorIn input)))];
            ext := ext w |}).
Proof.
  intros this input w Hparse.
  enter. rewrite Hparse. unfold throw, report, bind, JSON_parse.
  destruct (includes input (qlit "'id'")).
  - rewrite Hparse. reflexivity.
  - reflexivity.
Qed.

(** [field] is the read itself on anything but null and undefined. *)
Lemma get_field (v a : value) (k k' : string) :
  get v k = Normal a -> get v k' = Normal (field v k').
Proof.
  unfold field. destruct v; simpl; try discriminate; reflexivity.
Qed.








(** Registration overwrites its own slot and leaves the other alone. *)
Lemma setRequestHandler_overwrites :
  forall (this : Server St) (l l' : ListToolsHandler St)
         (c c' : CallToolHandler St),
    setRequestHandler (setRequestHandler this (listTools l)) (listTools l') =
      setRequestHandler this (listTools l') /\
    setRequestHandler (setRequestHandler this (callTool c)) (callTool c') =
      setRequestHandler this (callTool c') /\
    listToolsHandler (setRequestHandler this (callTool c)) =
      listToolsHandler this /\
    callToolHandler (setRequestHandler this (listTools l)) =
      callToolHandler this /\
    listToolsHandler (setRequestHandler this (listTools l)) = Some l /\
    callToolHandler (setRequestHandler this (callTool c)) = Some c.
Proof.
  intros this l l' c c'. repeat split.
Qed.

End TransportFacts.

(** ** The dispatcher on concrete lines *)




(** C3 as stated fails: a request with an unknown method and no [command]
    gets nothing, where the claim has an error envelope. *)
Lemma unknown_method_gets_no_error :
  let input := qlit "{'jsonrpc':'2.0','id':7,'method':'resources/list'}" in
  exists props,
    JSON.parse input = Some (VObject props) /\
    recognized (lookup (lit "method") props) = false /\
    has_key (lit "command") props = false /\
    handleInput Fixture.wording Fixture.bare input Fixture.start =
      (Normal tt, Fixture.start) /\
    stdout Fixture.start = [].
Proof.
  eexists. split; [vm_compute; reflexivity|].
  repeat split; vm_compute; reflexivity.
Qed.

(** C3, as amended, at that request. *)
Lemma unrecognized_method_is_dropped_witness :
  let input := qlit "{'jsonrpc':'2.0','id':7,'method':'resources/list'}" in
  JSON.parse input =
    Some (obj [("jsonrpc", VStr "2.0"); ("id", VNat 7);
               ("method", VStr "resources/list")]) /\
  handleInput Fixture.wording Fixture.bare input Fixture.start =
    (Normal tt, Fixture.start).
Proof.
  intros input.
  assert (Hparse : JSON.parse input =
            Some (obj [("jsonrpc", VStr "2.0"); ("id", VNat 7);
                       ("method", VStr "resources/list")]))
    by (vm_compute; reflexivity).
  split; [exact Hparse|].
  apply (unrecognized_method_is_dropped nat Fixture.wording Fixture.bare input _
           Fixture.start Hparse); vm_compute; reflexivity.
Defined.



(** C2 fails on the code: a line that does not parse and holds the id's name
    in double quotes is not answered.  The [catch] block parses it again, the
    promise is rejected and nothing is written. *)
Lemma unparsable_line_with_id_is_not_answered :
  let input := qlit "{'jsonrpc':'2.0','id':1,'method':'tools/list'" in
  JSON.parse input = None /\
  handleInput Fixture.wording Fixture.bare input Fixture.start =
    (Abrupt (Engine (SyntaxErrorIn input)), Fixture.start) /\
  stdout Fixture.start = [].
Proof.
  repeat split; vm_compute; reflexivity.
Qed.

(** The line the spec gives, which has no id in it, is answered once, with a
    null id. *)
Lemma parse_failure_outcome_witness :
  let input := qlit "{not json" in
  JSON.parse input = None /\
  handleInput Fixture.wording Fixture.bare input Fixture.start =
    (Normal tt,
     {| stdout :=
          [qlit "{'jsonrpc':'2.0','id':null,'error':{'code':-32603,'message':'Unexpected token in JSON','data':{'suggestion':'Check input format'}}}"];
        ext := 0 |}).
Proof.
  intros input.
  assert (Hparse : JSON.parse input = None) by (vm_compute; reflexivity).
  split; [exact Hparse|].
  rewrite (parse_failure_outcome nat Fixture.wording Fixture.bare input
             Fixture.start Hparse).
  vm_compute. reflexivity.
Defined.


(** The line of the spec that is not JSON, then an [initialize] request: both
    are answered, in order. *)
Lemma invalid_line_then_valid_line :
  handle_lines Fixture.wording Fixture.bare
    [qlit "{not json"; qlit "{'jsonrpc':'2.0','id':2,'method':'initialize'}"]
    Fixture.start =
  ([Normal tt; Normal tt],
   {| stdout :=
        [qlit "{'jsonrpc':'2.0','id':null,'error':{'code':-32603,'message':'Unexpected token in JSON','data':{'suggestion':'Check input format'}}}";
         qlit "{'jsonrpc':'2.0','id':2,'result':{'protocolVersion':'2024-11-05','capabilities':{'tools':{}},'serverInfo':{'name':'playmcp-browser','version':'1.0.0'}}}"];
      ext := 0 |}).
Proof.
  vm_compute. reflexivity.
Qed.

(** ** The tool handler of server.ts *)

Section AppFacts.

Variable St : Type.
Variable engine_message : engine_error -> jstring.
Variable minus : value -> value -> value.
Variable tools : list (jstring * value).
Variable playwrightController : Playwright.PlaywrightController St.

Lemma throws_errors_get (v : value) (k : string) :
  throws_errors (lift (W := St) (get v k)).
Proof.
  intros s. unfold lift. simpl. destruct v; simpl; exact I.
Qed.

Lemma throws_errors_interpolate (v : value) :
  throws_errors (lift (W := St) (interpolate v)).
Proof.
  intros s. unfold lift, interpolate. simpl. destruct (to_string v); exact I.
Qed.

Lemma throws_errors_call (A : Type) (op : Playwright.Op St A) :
  throws_errors (Playwright.call op).
Proof.
  intros s. unfold Playwright.call. destruct (op s) as [[a|e] s']; exact I.
Qed.

Lemma answers_success (text : value) :
  answers_in_shape (ret (W := St) (success text)).
Proof.
  intros s. simpl. exists text. now left.
Qed.

Lemma answers_failure (text : value) :
  answers_in_shape (ret (W := St) (failure text)).
Proof.
  intros s. simpl. exists text. now right.
Qed.

Lemma answers_bind (A : Type) (m : M St A) (f : A -> M St value) :
  throws_errors m -> (forall a, answers_in_shape (f a)) ->
  answers_in_shape (bind m f).
Proof.
  intros Hm Hf s. unfold bind. specialize (Hm s).
  destruct (m s) as [[a|e] s']; simpl in *.
  - apply Hf.
  - destruct e; auto.
Qed.

(** Whatever the name and the arguments, the [switch] ends with a tool
    response or with a thrown Error. *)
Lemma tool_switch_answers (name args : value) :
  answers_in_shape
    (tool_switch minus playwrightController name args).
Proof.
  unfold tool_switch.
  repeat first
    [ apply answers_success
    | apply answers_failure
    | match goal with
      | |- answers_in_shape (if ?b then _ else _) => destruct b
      end
    | apply answers_bind;
      [ first [ apply throws_errors_get | apply throws_errors_interpolate
              | apply throws_errors_call ]
      | intros ? ] ].
Qed.

(** The [catch] of the handler on an Error object. *)
Lemma tool_failure_on_error (m : jstring) (sg : option jstring) (s : St) :
  tool_failure engine_message (ErrorObj m sg) s =
    (Normal (failure (VString (failure_text m sg))), s).
Proof.
  unfold tool_failure, failure_text, bind, lift, ret. simpl.
  destruct sg as [[|c t]|]; reflexivity.
Qed.

Lemma tool_failure_on_engine (e : engine_error) (s : St) :
  tool_failure engine_message (Engine e) s =
    (Normal (failure (VString (lit "Error: " ++ engine_message e))), s).
Proof.
  unfold tool_failure, bind, lift, ret. simpl. now rewrite app_nil_r.
Qed.

(** The handler on a request as the transport builds it. *)
Lemma callTool_handler_request (name arguments : value) (s : St) :
  callTool_handler engine_message minus playwrightController
    (call_request name arguments) s =
  try_catch
    (tool_switch minus playwrightController name
       (or_empty arguments))
    (tool_failure engine_message) s.
Proof.
  reflexivity.
Qed.

(** An argument bag other than null can be read: absent, it is the empty
    object. *)
Lemma field_or_empty (arguments : value) (k : string) :
  arguments <> VNull ->
  get (or_empty arguments) k = Normal (field (or_empty arguments) k).
Proof.
  intros H. unfold field, or_empty.
  destruct arguments; simpl; try reflexivity. congruence.
Qed.

(** A controller method that throws while awaited in the [try] block. *)
Lemma call_thrown (A : Type) (op : Playwright.Op St A) (k : A -> M St value)
  (e : Index.BrowserError) (s s' : St) :
  thrown (op s) = Some (e, s') ->
  try_catch (bind (Playwright.call op) k) (tool_failure engine_message) s =
    (Normal (failure (VString (failure_text (Index.message e)
                                 (Index.suggestion e)))), s').
Proof.
  unfold thrown, try_catch, bind, Playwright.call.
  destruct (op s) as [[a|e0] s0]; [discriminate|].
  intros [= -> ->]. apply tool_failure_on_error.
Qed.

(** Whatever the tool, the failure of the method it awaits is what the handler
    resolves to, as text. *)
Lemma awaited_failure_is_reported :
  forall (name arguments : value) (e : Index.BrowserError) (s s' : St),
    arguments <> VNull ->
    awaited_failure playwrightController name (or_empty arguments) s =
      Some (e, s') ->
    callTool_handler engine_message minus playwrightController
      (call_request name arguments) s =
      (Normal (failure (VString (failure_text (Index.message e)
                                   (Index.suggestion e)))), s').
Proof.
  intros name arguments e s s' Hnn.
  rewrite callTool_handler_request.
  pose proof (field_or_empty arguments) as Hget.
  set (args := or_empty arguments) in *.
  unfold awaited_failure, tool_switch.
  repeat match goal with
         | |- context [is_str name ?t] => destruct (is_str name t)
         end.
  all: try discriminate.
  all: repeat (unfold bind at 1; unfold lift at 1; rewrite Hget by assumption).
  all: repeat match goal with
         | |- context [truthy (field ?a ?k)] => destruct (truthy (field a k))
         | |- context [is_string (field ?a ?k)] =>
             destruct (is_string (field a k))
         | |- context [is_number (field ?a ?k)] =>
             destruct (is_number (field a k))
         end; simpl; try discriminate.
  all: intros H; apply (call_thrown _ _ _ _ _ _ H).
Qed.

(** C9.  The handler registered for [callTool] never rejects: for every name
    and every arguments it resolves.  And for every name and every argument
    bag (a map, or none), when the controller method the tool awaits throws
    an error with message [m] and suggestion [sg], the handler resolves to
    the tool response whose only block is the text "Error: m", followed by a
    new line and "Suggestion: sg" when there is a suggestion (a non-empty
    one), with [isError: true]. *)
Theorem callTool_handler_never_rejects :
  forall (name arguments : value) (s : St),
    (exists response s',
       callTool_handler engine_message minus playwrightController
         (call_request name arguments) s = (Normal response, s')) /\
    (forall (e : Index.BrowserError) (s' : St),
       arguments <> VNull ->
       awaited_failure playwrightController name (or_empty arguments) s =
         Some (e, s') ->
       callTool_handler engine_message minus playwrightController
         (call_request name arguments) s =
         (Normal (failure (VString (failure_text (Index.message e)
                                      (Index.suggestion e)))), s')).
Proof.
  intros name arguments s. split.
  - rewrite callTool_handler_request. unfold try_catch.
    pose proof (tool_switch_answers name (or_empty arguments) s) as H.
    destruct (tool_switch _ _ _ _ s) as [[r|[e|m sg|v]] s']; simpl in H.
    + eauto.
    + rewrite tool_failure_on_engine. eauto.
    + rewrite tool_failure_on_error. eauto.
    + contradiction.
  - intros e s'. apply awaited_failure_is_reported.
Qed.





End AppFacts.

(** ** The handlers on concrete lines *)




(** C9 at [navigate] over a controller whose browser is not open. *)
Lemma callTool_handler_never_rejects_witness :
  let controller := Fixture.closed Fixture.navigation_failed in
  let arguments := obj [("url", VStr "https://example.com")] in
  Playwright.navigate controller (VStr "https://example.com") 0 =
    (inr Fixture.navigation_failed, 1) /\
  callTool_handler Fixture.wording (fun _ _ => VNat 0) controller
    (call_request (VStr "navigate") arguments) 0 =
    (Normal
       (failure
          (VString (lit "Error: Failed to navigate" ++ [10%N] ++
                    lit "Suggestion: Check if the URL is valid and accessible"))),
     1).
Proof.
  intros controller arguments. split; [reflexivity|].
  destruct (callTool_handler_never_rejects nat Fixture.wording
              (fun _ _ => VNat 0) controller (VStr "navigate") arguments 0)
    as [_ Hthrown].
  rewrite (Hthrown Fixture.navigation_failed 1)
    by (discriminate || (vm_compute; reflexivity)).
  vm_compute. reflexivity.
Defined.


(** ** The line framer *)

Lemma split_not_nil (s : jstring) : split 10 s <> [].
Proof.
  destruct s as [|c s]; simpl; [discriminate|].
  destruct (N.eqb c 10); [discriminate|].
  destruct (split 10 s); discriminate.
Qed.

Lemma join_cons (sep p : jstring) (ps : list jstring) :
  ps <> [] -> join sep (p :: ps) = p ++ sep ++ join sep ps.
Proof.
  destruct ps; [congruence|reflexivity].
Qed.

(** Splitting loses nothing: the pieces joined by the separator are the
    text. *)
Lemma join_split (s : jstring) : join [10%N] (split 10 s) = s.
Proof.
  induction s as [|c s IH]; [reflexivity|].
  simpl split. destruct (N.eqb c 10) eqn:Hc.
  - apply N.eqb_eq in Hc. subst c.
    rewrite join_cons by apply split_not_nil. now rewrite IH.
  - pose proof (split_not_nil s) as Hnil.
    destruct (split 10 s) as [|l ls]; [congruence|].
    destruct ls as [|l' ls].
    + simpl in *. now rewrite IH.
    + rewrite join_cons by discriminate.
      rewrite join_cons in IH by discriminate.
      simpl. now rewrite <- IH.
Qed.

(** No piece holds the separator. *)
Lemma split_pieces (s : jstring) :
  Forall (fun l => has_newline l = false) (split 10 s).
Proof.
  induction s as [|c s IH]; simpl.
  - repeat constructor.
  - destruct (N.eqb c 10) eqn:Hc.
    + constructor; [reflexivity|exact IH].
    + destruct (split 10 s) as [|l ls]; [repeat constructor|].
      * unfold has_newline. simpl. now rewrite Hc.
      * inversion IH as [|? ? Hl Hls]; subst. constructor; [|exact Hls].
        unfold has_newline in *. simpl. now rewrite Hc.
Qed.

Lemma includes_newline (s : jstring) : includes s [10%N] = has_newline s.
Proof.
  induction s as [|c s IH]; [reflexivity|].
  unfold has_newline in *. cbn [includes starts_with existsb].
  rewrite IH, andb_true_r, (N.eqb_sym 10 c). reflexivity.
Qed.

Lemma split_without_newline (s : jstring) :
  has_newline s = false -> split 10 s = [s].
Proof.
  induction s as [|c s IH]; [reflexivity|].
  unfold has_newline in *. simpl. intros H.
  apply orb_false_iff in H as [Hc Hs].
  rewrite Hc, (IH Hs). reflexivity.
Qed.

(** What [drop_space] leaves starts with a unit that is not white space. *)
Lemma drop_space_nil (s : jstring) : drop_space s = [] <-> blank s = true.
Proof.
  unfold blank. induction s as [|c s IH]; simpl; [tauto|].
  destruct (is_js_space c); simpl; [exact IH|].
  split; discriminate.
Qed.

Lemma blank_app (a b : jstring) : blank (a ++ b) = blank a && blank b.
Proof.
  unfold blank. apply forallb_app.
Qed.

Lemma blank_rev (s : jstring) : blank (rev s) = blank s.
Proof.
  induction s as [|c s IH]; [reflexivity|].
  simpl rev. rewrite blank_app, IH. unfold blank. simpl.
  rewrite andb_true_r. apply andb_comm.
Qed.

Lemma drop_space_blank (s : jstring) :
  blank s = false -> blank (drop_space s) = false.
Proof.
  unfold blank. induction s as [|c s IH]; simpl; [trivial|].
  destruct (is_js_space c) eqn:Hc; simpl; [exact IH|].
  intros _. now rewrite Hc.
Qed.

(** [line.trim()] is truthy exactly on the lines that are not blank. *)
Lemma trim_truthy (line : jstring) :
  truthy (VString (trim line)) = negb (blank line).
Proof.
  unfold trim. destruct (blank line) eqn:Hb.
  - apply drop_space_nil in Hb. rewrite Hb. reflexivity.
  - assert (H : blank (drop_space (rev (drop_space line))) = false).
    { apply drop_space_blank. rewrite blank_rev. now apply drop_space_blank. }
    destruct (drop_space (rev (drop_space line))) as [|c t]; [discriminate|].
    simpl. destruct (rev t ++ [c]) eqn:E; [|reflexivity].
    now apply app_eq_nil in E as [_ E].
Qed.

(** One event, whatever the buffer: the text is cut at every newline, the
    last piece stays in the buffer, the others are handed over unless
    blank. *)
Lemma on_data_lines (buffer chunk : jstring) :
  exists lines rest,
    buffer ++ chunk = join [10%N] (lines ++ [rest]) /\
    Forall (fun l => has_newline l = false) (lines ++ [rest]) /\
    on_data buffer chunk = (rest, filter (fun l => negb (blank l)) lines).
Proof.
  set (text := buffer ++ chunk).
  exists (removelast (split 10 text)), (last (split 10 text) []).
  rewrite <- (@app_removelast_last jstring (split 10 text) []
               (split_not_nil text)).
  split; [symmetry; apply join_split|]. split; [apply split_pieces|].
  unfold on_data. fold text. rewrite includes_newline.
  destruct (has_newline text) eqn:Hn.
  - f_equal. apply filter_ext. intros l. apply trim_truthy.
  - rewrite (split_without_newline text Hn). reflexivity.
Qed.

Lemma join_last (sep : jstring) (ls : list jstring) (r x : jstring) :
  join sep (ls ++ [r]) ++ x = join sep (ls ++ [r ++ x]).
Proof.
  induction ls as [|l ls IH]; [reflexivity|].
  rewrite <- !app_comm_cons.
  rewrite !join_cons by (destruct ls; discriminate).
  now rewrite <- !app_assoc, IH.
Qed.

Lemma join_nested (sep : jstring) (l1 l2 : list jstring) (r : jstring) :
  join sep (l1 ++ [join sep (l2 ++ [r])]) = join sep ((l1 ++ l2) ++ [r]).
Proof.
  induction l1 as [|l l1 IH]; [reflexivity|].
  rewrite <- !app_comm_cons.
  rewrite !join_cons; try (destruct l1; discriminate).
  - now rewrite IH.
  - destruct l1; [destruct l2|]; discriminate.
Qed.

(** Any number of reads, from a buffer that holds no newline. *)
Lemma feed_lines (chunks : list jstring) :
  forall buffer : jstring,
    has_newline buffer = false ->
    exists lines rest,
      buffer ++ concat chunks = join [10%N] (lines ++ [rest]) /\
      Forall (fun l => has_newline l = false) (lines ++ [rest]) /\
      feed buffer chunks = (rest, filter (fun l => negb (blank l)) lines).
Proof.
  induction chunks as [|chunk chunks IH]; intros buffer Hbuffer.
  - exists [], buffer. simpl. rewrite app_nil_r.
    repeat split. repeat constructor. exact Hbuffer.
  - destruct (on_data_lines buffer chunk) as [lines1 [kept [Htext [Hall Hrun]]]].
    assert (Hkept : has_newline kept = false).
    { apply Forall_app in Hall as [_ Hall]. now inversion Hall. }
    destruct (IH kept Hkept) as [lines2 [rest [Htext' [Hall' Hrun']]]].
    exists (lines1 ++ lines2), rest. split; [|split].
    + simpl concat. rewrite app_assoc, Htext, join_last, Htext'.
      apply join_nested.
    + apply Forall_app in Hall as [Hall _].
      rewrite <- app_assoc. apply Forall_app. now split.
    + simpl feed. rewrite Hrun, Hrun', filter_app. reflexivity.
Qed.

(** C7.  Each [data] event appends the chunk to the buffer; the text is cut
    at every newline into pieces that hold none; the last piece, the trailing
    partial line, is the buffer the event leaves, and the pieces before it
    are the complete lines, of which exactly those that are not blank (empty
    or white space only) are handed to [handleInput], in order.  Over any
    sequence of reads from the empty buffer, the lines handed over are thus
    the complete non-blank lines of the whole input, wherever the chunks were
    cut. *)
Theorem framer_yields_lines :
  (forall buffer chunk : jstring,
     exists lines rest,
       buffer ++ chunk = join [10%N] (lines ++ [rest]) /\
       Forall (fun l => has_newline l = false) (lines ++ [rest]) /\
       on_data buffer chunk = (rest, filter (fun l => negb (blank l)) lines)) /\
  (forall chunks : list jstring,
     exists lines rest,
       concat chunks = join [10%N] (lines ++ [rest]) /\
       Forall (fun l => has_newline l = false) (lines ++ [rest]) /\
       feed [] chunks = (rest, filter (fun l => negb (blank l)) lines)).
Proof.
  split.
  - apply on_data_lines.
  - intros chunks. apply (feed_lines chunks []). reflexivity.
Qed.

(** Three reads that cut two requests and a blank line in odd places. *)
Lemma framer_yields_lines_example :
  feed []
    [qlit "{'id':1,'method':"; qlit "'tools/list'}" ++ [10%N; 32%N; 13%N; 10%N]
       ++ qlit "{'id':2"; qlit ",'method':'initialize'}" ++ [10%N] ++ qlit "{'id'"] =
  (qlit "{'id'",
   [qlit "{'id':1,'method':'tools/list'}"; qlit "{'id':2,'method':'initialize'}"]).
Proof.
  vm_compute. reflexivity.
Qed.

(* ================================================================== *)
(** * Further properties *)

(** ** What JSON.stringify writes fits on one line *)

Lemma has_newline_app (a b : jstring) :
  has_newline (a ++ b) = has_newline a || has_newline b.
Proof.
  apply existsb_app.
Qed.

Lemma digit_units_line (ds : list N) : has_newline (digit_units ds) = false.
Proof.
  unfold has_newline, digit_units.
  induction ds as [|d ds IH]; simpl; [reflexivity|].
  rewrite IH, orb_false_r. apply N.eqb_neq. lia.
Qed.

Lemma uint_units_line (u : Decimal.uint) : has_newline (uint_units u) = false.
Proof.
  unfold has_newline. induction u; simpl; auto.
Qed.

Lemma repeat_line (n : nat) : has_newline (repeat 48%N n) = false.
Proof.
  unfold has_newline. induction n; simpl; auto.
Qed.

Lemma number_to_string_line (x : number) :
  has_newline (number_to_string x) = false.
Proof.
  unfold number_to_string.
  destruct (digits x) as [|d1 rest] eqn:Hd; [reflexivity|].
  rewrite <- Hd.
  repeat match goal with
         | |- context [if ?b then _ else _] => destruct b
         | |- context [match rest with [] => _ | _ :: _ => _ end] =>
             destruct rest
         end;
    repeat rewrite has_newline_app;
    unfold N_to_decimal;
    repeat rewrite digit_units_line;
    repeat rewrite uint_units_line;
    repeat rewrite repeat_line;
    reflexivity.
Qed.

Lemma hex_digit_line (d : N) : N.eqb (JSON.hex_digit d) 10 = false.
Proof.
  unfold JSON.hex_digit. apply N.eqb_neq. destruct (N.ltb d 10); lia.
Qed.

Lemma unicode_escape_line (c : N) (s : jstring) :
  has_newline (JSON.unicode_escape c ++ s) = has_newline s.
Proof.
  unfold JSON.unicode_escape. rewrite !has_newline_app.
  unfold has_newline at 2. simpl existsb. rewrite !hex_digit_line.
  reflexivity.
Qed.

Lemma quote_units_line (n : nat) :
  forall s : jstring, (length s <= n)%nat ->
    has_newline (JSON.quote_units s) = false.
Proof.
  induction n as [|n IH]; intros s Hlen.
  - destruct s; [reflexivity|simpl in Hlen; lia].
  - destruct s as [|c s]; [reflexivity|]. simpl in Hlen.
    assert (Hs : has_newline (JSON.quote_units s) = false)
      by (apply IH; lia).
    cbn [JSON.quote_units].
    destruct (N.eqb c 8); [exact Hs|].
    destruct (N.eqb c 9); [exact Hs|].
    destruct (N.eqb c 10) eqn:Hnl; [exact Hs|].
    destruct (N.eqb c 12); [exact Hs|].
    destruct (N.eqb c 13); [exact Hs|].
    destruct (N.eqb c 34); [exact Hs|].
    destruct (N.eqb c 92); [exact Hs|].
    destruct (N.ltb c 32); [now rewrite unicode_escape_line|].
    destruct (JSON.is_high_surrogate c).
    + destruct s as [|d s'].
      * rewrite <- (app_nil_r (JSON.unicode_escape c)).
        now rewrite unicode_escape_line.
      * destruct (JSON.is_low_surrogate d) eqn:Hd.
        -- unfold has_newline. simpl existsb. rewrite Hnl.
           assert (Hd' : N.eqb d 10 = false).
           { apply N.eqb_neq. intros ->. discriminate. }
           rewrite Hd'. simpl. apply IH. simpl in Hlen. lia.
        -- now rewrite unicode_escape_line.
    + destruct (JSON.is_low_surrogate c); [now rewrite unicode_escape_line|].
      unfold has_newline in *. simpl. now rewrite Hnl.
Qed.

Lemma quote_line (s : jstring) : has_newline (JSON.quote s) = false.
Proof.
  unfold JSON.quote. rewrite !has_newline_app.
  rewrite (quote_units_line (length s) s (le_n _)). reflexivity.
Qed.

Lemma join_line (sep : jstring) (parts : list jstring) :
  has_newline sep = false ->
  Forall (fun p => has_newline p = false) parts ->
  has_newline (join sep parts) = false.
Proof.
  intros Hsep H. induction H as [|p ps Hp Hps IH]; [reflexivity|].
  destruct ps as [|q ps]; [exact Hp|].
  change (join sep (p :: q :: ps)) with (p ++ sep ++ join sep (q :: ps)).
  now rewrite !has_newline_app, Hp, Hsep, IH.
Qed.

Lemma wrap_line (indent stepback : jstring) (opening closing : string)
  (parts : list jstring) :
  has_newline (lit opening) = false -> has_newline (lit closing) = false ->
  Forall (fun p => has_newline p = false) parts ->
  has_newline (JSON.wrap [] indent stepback opening closing parts) = false.
Proof.
  intros Ho Hc H. unfold JSON.wrap.
  destruct parts as [|p ps].
  - now rewrite has_newline_app, Ho, Hc.
  - now rewrite !has_newline_app, Ho, Hc, (join_line (lit ",") _ eq_refl H).
Qed.

(** Induction on values, through the elements and the members. *)
Lemma value_nested_ind (P : value -> Prop) :
  P VUndefined -> P VNull -> (forall b, P (VBool b)) ->
  (forall n, P (VNumber n)) -> (forall s, P (VString s)) ->
  (forall l, Forall P l -> P (VArray l)) ->
  (forall ps, Forall (fun p => P (snd p)) ps -> P (VObject ps)) ->
  forall v, P v.
Proof.
  intros Hu Hn Hb Hnum Hs Ha Ho.
  exact (fix F (v : value) : P v :=
           match v with
           | VUndefined => Hu
           | VNull => Hn
           | VBool b => Hb b
           | VNumber n => Hnum n
           | VString s => Hs s
           | VArray l =>
               Ha l ((fix G (l : list value) : Forall P l :=
                        match l with
                        | [] => Forall_nil P
                        | x :: l' => Forall_cons x (F x) (G l')
                        end) l)
           | VObject ps =>
               Ho ps ((fix G (ps : list (jstring * value))
                         : Forall (fun p => P (snd p)) ps :=
                         match ps with
                         | [] => Forall_nil _
                         | p :: ps' => Forall_cons p (F (snd p)) (G ps')
                         end) ps)
           end).
Qed.

(** Without a gap, no serialized value holds a raw newline. *)
Lemma serialize_line (v : value) :
  forall indent s : jstring,
    JSON.serialize [] indent v = Some s -> has_newline s = false.
Proof.
  induction v as [| |b|n|t|l IH|ps IH] using value_nested_ind;
    intros indent s; simpl.
  - discriminate.
  - intros [= <-]. reflexivity.
  - destruct b; intros [= <-]; reflexivity.
  - intros [= <-]. apply number_to_string_line.
  - intros [= <-]. apply quote_line.
  - intros [= <-]. apply wrap_line; try reflexivity.
    induction IH as [|x l Hx _ IHl]; constructor; [|exact IHl].
    destruct (JSON.serialize [] (indent ++ []) x) as [t|] eqn:E;
      [exact (Hx _ _ E)|reflexivity].
  - intros [= <-]. apply wrap_line; try reflexivity.
    induction IH as [|[k x] ps Hx _ IHps]; [constructor|].
    simpl in Hx.
    destruct (JSON.serialize [] (indent ++ []) x) as [t|] eqn:E;
      [|exact IHps].
    constructor; [|exact IHps].
    change (has_newline (JSON.quote k ++ lit ":" ++ t) = false).
    now rewrite !has_newline_app, quote_line, (Hx _ _ E).
Qed.

(** What [console.log(JSON.stringify(v))] writes is one line. *)
Lemma written_line (v : value) : has_newline (written v) = false.
Proof.
  unfold written, JSON.stringify.
  destruct (JSON.serialize [] [] v) as [s|] eqn:E; [|reflexivity].
  exact (serialize_line v [] s E).
Qed.

(** ** What JSON text a scalar can come from *)

Lemma word_unit_not_quote (c : N) :
  JSON.is_word_unit c = true -> N.eqb c 34 = false.
Proof.
  intros H. destruct (N.eqb c 34) eqn:E; [|reflexivity].
  apply N.eqb_eq in E. subst c. discriminate.
Qed.

Lemma top_unit_cases (c : N) (m : JSON.lexmode) (ts : list JSON.token) :
  JSON.top_unit c = Some (m, ts) ->
  existsb is_string_token ts = false /\
  (N.eqb c 34 = true /\ m = JSON.LStr [] \/
   N.eqb c 34 = false /\ (m = JSON.LTop \/ m = JSON.LWord [c])).
Proof.
  unfold JSON.top_unit.
  destruct (N.eqb c 34) eqn:Hq.
  - apply N.eqb_eq in Hq. subst c. intros [= <- <-]. auto.
  - repeat match goal with
           | |- (if ?b then _ else _) = _ -> _ => destruct b
           end; intros [= <- <-]; auto.
Qed.

(** A quote in the text leaves a string among the tokens. *)
Lemma lex_quote (s : jstring) :
  forall (m : JSON.lexmode) (ts : list JSON.token),
    JSON.lex m s = Some ts ->
    match m with
    | JSON.LTop | JSON.LWord _ =>
        has_quote s = true -> existsb is_string_token ts = true
    | _ => existsb is_string_token ts = true
    end.
Proof.
  unfold has_quote.
  induction s as [|c s IH]; intros m ts.
  - destruct m; simpl; try discriminate; intros _ [=].
  - destruct m as [|acc|acc|acc|acc k code]; simpl.
    + destruct (JSON.top_unit c) as [[m' tks]|] eqn:Htop; [|discriminate].
      destruct (JSON.lex m' s) as [rest|] eqn:Hrest; [|discriminate].
      intros [= <-] Hq. rewrite existsb_app.
      destruct (top_unit_cases c m' tks Htop) as [_ [[_ ->]|[Hc Hm]]].
      * rewrite (IH _ _ Hrest). apply orb_true_r.
      * rewrite Hc in Hq. simpl in Hq.
        destruct Hm as [-> | ->]; rewrite (IH _ _ Hrest Hq); apply orb_true_r.
    + destruct (JSON.is_word_unit c) eqn:Hw.
      * intros Hlex Hq. rewrite (word_unit_not_quote c Hw) in Hq.
        apply (IH _ _ Hlex Hq).
      * destruct (JSON.read_word (rev acc)) as [t|]; [|discriminate].
        destruct (JSON.top_unit c) as [[m' tks]|] eqn:Htop; [|discriminate].
        destruct (JSON.lex m' s) as [rest|] eqn:Hrest; [|discriminate].
        intros [= <-] Hq. simpl. rewrite existsb_app.
        destruct (top_unit_cases c m' tks Htop) as [_ [[_ ->]|[Hc Hm]]].
        -- rewrite (IH _ _ Hrest). now rewrite !orb_true_r.
        -- rewrite Hc in Hq. simpl in Hq.
           destruct Hm as [-> | ->]; rewrite (IH _ _ Hrest Hq);
             now rewrite !orb_true_r.
    + destruct (N.eqb c 34).
      * destruct (JSON.lex JSON.LTop s); [|discriminate].
        intros [= <-]. reflexivity.
      * destruct (N.eqb c 92); [apply (IH (JSON.LEsc acc))|].
        destruct (N.ltb c 32); [discriminate|apply (IH (JSON.LStr (c :: acc)))].
    + destruct (N.eqb c 117); [apply (IH (JSON.LHex acc 3 0%N))|].
      destruct (JSON.escape_unit c); [|discriminate].
      apply (IH (JSON.LStr (n :: acc))).
    + destruct (JSON.hex_value c); [|discriminate].
      destruct k; [apply (IH (JSON.LStr _))|apply (IH (JSON.LHex _ _ _))].
Qed.

(** Inside a bracket the machine ends on an array or an object, if at all. *)
Lemma pstep_inside (st st' : JSON.pstate) (stk stk' : list JSON.frame)
  (t : JSON.token) :
  stk <> [] ->
  (forall v, st <> JSON.PDone v) ->
  JSON.pstep st stk t = Some (st', stk') ->
  (stk' <> [] /\ forall v, st' <> JSON.PDone v) \/
  (stk' = [] /\ exists v, st' = JSON.PDone v /\ is_container v = true).
Proof.
  intros Hstk Hst.
  destruct st; try (exfalso; eapply Hst; reflexivity);
    destruct t as [| | | | | |a]; try destruct a;
    destruct stk as [|[acc|acc [key|]] [|f stk0]]; try congruence;
    simpl; try discriminate;
    try destruct first; try destruct f as [acc'|acc' [key'|]];
    simpl; try discriminate;
    intros [= <- <-];
    solve [ left; split; [discriminate|intros v; discriminate]
          | right; split; [reflexivity|eexists; split; reflexivity] ].
Qed.

Lemma run_done (v v' : value) (stk : list JSON.frame) (ts : list JSON.token) :
  JSON.run (JSON.PDone v) stk ts = Some v' -> ts = [] /\ v' = v.
Proof.
  destruct ts; simpl; [intros [= <-]; auto|discriminate].
Qed.

Lemma run_inside (ts : list JSON.token) :
  forall (st : JSON.pstate) (stk : list JSON.frame) (v : value),
    stk <> [] ->
    (forall v', st <> JSON.PDone v') ->
    JSON.run st stk ts = Some v -> is_container v = true.
Proof.
  induction ts as [|t ts IH]; intros st stk v Hstk Hst; simpl.
  - destruct st; try discriminate. exfalso. eapply Hst. reflexivity.
  - destruct (JSON.pstep st stk t) as [[st' stk']|] eqn:Hstep; [|discriminate].
    destruct (pstep_inside st st' stk stk' t Hstk Hst Hstep)
      as [[Hstk' Hst']|[-> [v' [-> Hv']]]].
    + apply IH; assumption.
    + intros Hrun. apply run_done in Hrun as [_ ->]. exact Hv'.
Qed.

(** A scalar is the value of a text of one token. *)
Lemma parse_scalar (s : jstring) (v : value) :
  JSON.parse s = Some v -> is_container v = false ->
  JSON.lex JSON.LTop s = Some [JSON.TAtom v].
Proof.
  unfold JSON.parse. destruct (JSON.lex JSON.LTop s) as [ts|]; [|discriminate].
  destruct ts as [|t ts]; simpl; [discriminate|].
  destruct t as [| | | | | |a]; simpl; try discriminate.
  - intros Hrun Hv.
    eapply run_inside in Hrun;
      [congruence|discriminate|intros v'; discriminate].
  - intros Hrun Hv.
    eapply run_inside in Hrun;
      [congruence|discriminate|intros v'; discriminate].
  - intros Hrun _. apply run_done in Hrun as [-> ->]. reflexivity.
Qed.

Lemma includes_first (s p : jstring) (c : N) :
  includes s (c :: p) = true -> existsb (fun x => N.eqb x c) s = true.
Proof.
  induction s as [|x s IH]; simpl; [discriminate|].
  intros H. apply orb_true_iff in H as [H|H].
  - apply andb_true_iff in H as [H _]. rewrite N.eqb_sym, H. reflexivity.
  - rewrite (IH H). apply orb_true_r.
Qed.

(** The text of a scalar that is no string holds no quote, so no quoted name
    of an id. *)
Lemma scalar_text_has_no_id (s : jstring) (v : value) :
  JSON.parse s = Some v -> is_container v = false -> is_string v = false ->
  includes s (qlit "'id'") = false.
Proof.
  intros Hparse Hc Hs.
  pose proof (lex_quote s JSON.LTop _ (parse_scalar s v Hparse Hc)) as H.
  simpl in H.
  destruct (includes s (qlit "'id'")) eqn:E; [|reflexivity].
  apply includes_first in E. fold (has_quote s) in E.
  specialize (H E). destruct v; simpl in *; discriminate.
Qed.

(** ** White space around a JSON text *)

Lemma json_space_cases (c : N) :
  JSON.is_json_space c = true -> c = 32%N \/ c = 9%N \/ c = 10%N \/ c = 13%N.
Proof.
  unfold JSON.is_json_space. intros H.
  repeat (apply orb_true_iff in H as [H|H]); apply N.eqb_eq in H; auto.
Qed.

Lemma top_unit_space (c : N) :
  JSON.is_json_space c = true -> JSON.top_unit c = Some (JSON.LTop, []).
Proof.
  unfold JSON.top_unit. now intros ->.
Qed.

Lemma lex_trailing_space (c : N) (s : jstring) :
  JSON.is_json_space c = true ->
  forall m : JSON.lexmode, JSON.lex m (s ++ [c]) = JSON.lex m s.
Proof.
  intros Hc. induction s as [|x s IH]; intros m.
  - destruct m as [|acc|acc|acc|acc k code]; simpl.
    + now rewrite (top_unit_space c Hc).
    + rewrite (top_unit_space c Hc).
      destruct (json_space_cases c Hc) as [-> | [-> | [-> | ->]]]; simpl;
        destruct (JSON.read_word (rev acc)); reflexivity.
    + destruct (json_space_cases c Hc) as [-> | [-> | [-> | ->]]]; reflexivity.
    + destruct (json_space_cases c Hc) as [-> | [-> | [-> | ->]]]; reflexivity.
    + destruct (json_space_cases c Hc) as [-> | [-> | [-> | ->]]]; reflexivity.
  - destruct m as [|acc|acc|acc|acc k code]; simpl.
    + destruct (JSON.top_unit x) as [[m' ts]|]; [|reflexivity].
      now rewrite IH.
    + destruct (JSON.is_word_unit x); [apply IH|].
      destruct (JSON.read_word (rev acc)); [|reflexivity].
      destruct (JSON.top_unit x) as [[m' ts]|]; [|reflexivity].
      now rewrite IH.
    + rewrite !IH. reflexivity.
    + rewrite IH. destruct (JSON.escape_unit x); [now rewrite IH|reflexivity].
    + destruct (JSON.hex_value x); [|reflexivity].
      destruct k; apply IH.
Qed.

Lemma lex_padded (front back s : jstring) :
  forallb JSON.is_json_space front = true ->
  forallb JSON.is_json_space back = true ->
  JSON.lex JSON.LTop (front ++ s ++ back) = JSON.lex JSON.LTop s.
Proof.
  intros Hf Hb.
  assert (Hback : forall (t : jstring) (m : JSON.lexmode),
             JSON.lex m (t ++ back) = JSON.lex m t).
  { induction back as [|c back IH]; intros t m.
    - now rewrite app_nil_r.
    - simpl in Hb. apply andb_true_iff in Hb as [Hc Hb].
      change (c :: back) with ([c] ++ back).
      rewrite app_assoc, (IH Hb). now apply lex_trailing_space. }
  induction front as [|c front IH]; simpl app.
  - apply Hback.
  - simpl in Hf. apply andb_true_iff in Hf as [Hc Hf].
    cbn [JSON.lex]. rewrite (top_unit_space c Hc), (IH Hf).
    destruct (JSON.lex JSON.LTop s); reflexivity.
Qed.

(** [JSON.parse] reads a text with white space around it as the text
    itself. *)
Lemma parse_padded (front back s : jstring) :
  forallb JSON.is_json_space front = true ->
  forallb JSON.is_json_space back = true ->
  JSON.parse (front ++ s ++ back) = JSON.parse s.
Proof.
  intros Hf Hb. unfold JSON.parse. now rewrite (lex_padded front back s Hf Hb).
Qed.

Lemma starts_with_snoc (pat : jstring) :
  forall (s : jstring) (c : N),
    pat <> [] -> N.eqb (last pat 0%N) c = false ->
    starts_with pat (s ++ [c]) = starts_with pat s.
Proof.
  induction pat as [|p pat IH]; intros s c Hne Hlast; [congruence|].
  destruct pat as [|q pat].
  - simpl in Hlast. destruct s as [|x s]; simpl.
    + now rewrite Hlast.
    + reflexivity.
  - destruct s as [|x s].
    + simpl. apply andb_false_r.
    + cbn [app starts_with]. f_equal. apply IH; [discriminate|exact Hlast].
Qed.

Lemma includes_snoc (pat s : jstring) (c : N) :
  pat <> [] -> N.eqb (last pat 0%N) c = false ->
  includes (s ++ [c]) pat = includes s pat.
Proof.
  intros Hne Hlast. induction s as [|x s IH].
  - destruct pat as [|p pat]; [congruence|].
    pose proof (starts_with_snoc (p :: pat) [] c Hne Hlast) as H.
    simpl in *. rewrite H. reflexivity.
  - pose proof (starts_with_snoc pat (x :: s) c Hne Hlast) as H.
    rewrite <- app_comm_cons in *. cbn [includes]. now rewrite IH, H.
Qed.

Lemma json_space_not_quote (c : N) :
  JSON.is_json_space c = true -> N.eqb 34 c = false.
Proof.
  intros H. destruct (json_space_cases c H) as [-> | [-> | [-> | ->]]]; reflexivity.
Qed.

(** White space around a text adds no quoted name of an id. *)
Lemma includes_id_padded (front back s : jstring) :
  forallb JSON.is_json_space front = true ->
  forallb JSON.is_json_space back = true ->
  includes (front ++ s ++ back) (qlit "'id'") = includes s (qlit "'id'").
Proof.
  intros Hf Hb.
  assert (Hback : forall t : jstring,
             includes (t ++ back) (qlit "'id'") = includes t (qlit "'id'")).
  { induction back as [|c back IH]; intros t.
    - now rewrite app_nil_r.
    - simpl in Hb. apply andb_true_iff in Hb as [Hc Hb].
      change (c :: back) with ([c] ++ back).
      rewrite app_assoc, (IH Hb).
      apply includes_snoc; [discriminate|].
      exact (json_space_not_quote c Hc). }
  induction front as [|c front IH]; simpl app.
  - apply Hback.
  - simpl in Hf. apply andb_true_iff in Hf as [Hc Hf].
    cbn [includes]. rewrite (IH Hf).
    change (qlit "'id'") with (34%N :: qlit "id'") at 1.
    cbn [starts_with]. now rewrite (json_space_not_quote c Hc).
Qed.

(** ** Cutting a text at its newlines *)

Lemma split_app_newline (p rest : jstring) :
  has_newline p = false ->
  split 10 (p ++ 10%N :: rest) = p :: split 10 rest.
Proof.
  unfold has_newline. induction p as [|c p IH]; simpl; [reflexivity|].
  intros H. apply orb_false_iff in H as [Hc Hp].
  now rewrite Hc, (IH Hp).
Qed.

(** Pieces that hold no newline are what their join splits into. *)
Lemma split_join (ps : list jstring) :
  ps <> [] -> Forall (fun l => has_newline l = false) ps ->
  split 10 (join [10%N] ps) = ps.
Proof.
  intros Hne H. induction H as [|p ps Hp Hps IH]; [congruence|].
  destruct ps as [|q ps].
  - apply split_without_newline. exact Hp.
  - change (join [10%N] (p :: q :: ps))
      with (p ++ 10%N :: join [10%N] (q :: ps)).
    rewrite (split_app_newline p _ Hp), IH by discriminate. reflexivity.
Qed.

(** ** What [handleInput] writes, and when it rejects *)

Section OutputFacts.

Variable St : Type.
Variable engine_message : engine_error -> jstring.

Lemma quiet_ret (A : Type) (a : A) : quiet (St := St) (ret a).
Proof. intros w. reflexivity. Qed.

Lemma quiet_lift (A : Type) (c : completion A) : quiet (St := St) (lift c).
Proof. intros w. reflexivity. Qed.

Lemma quiet_throw (A : Type) (e : exn) : quiet (St := St) (A := A) (throw e).
Proof. intros w. reflexivity. Qed.

Lemma quiet_await (h : M St value) : quiet (await h).
Proof.
  intros w. unfold await. destruct (h (ext w)). reflexivity.
Qed.

Lemma quiet_JSON_parse (input : jstring) : quiet (St := St) (JSON_parse input).
Proof.
  intros w. unfold JSON_parse. destruct (JSON.parse input); reflexivity.
Qed.

Lemma quiet_bind (A B : Type) (m : M (world St) A) (f : A -> M (world St) B) :
  quiet m -> (forall a, quiet (f a)) -> quiet (bind m f).
Proof.
  intros Hm Hf w. unfold bind. specialize (Hm w).
  destruct (m w) as [[a|e] w']; simpl in *; [|exact Hm].
  now rewrite Hf.
Qed.

Lemma quiet_legacy_result (response : value) :
  quiet (St := St) (legacy_result response).
Proof.
  unfold legacy_result.
  apply quiet_bind; [apply quiet_lift|intros isError].
  destruct (truthy isError);
    repeat (apply quiet_bind; [apply quiet_lift|intros ?]); apply quiet_ret.
Qed.

Lemma writes_last_log (v : value) : writes_last (St := St) (console_log_json v).
Proof.
  intros w. unfold console_log_json. right. simpl. eauto.
Qed.

Lemma writes_last_quiet (A : Type) (m : M (world St) A) :
  quiet m -> writes_last m.
Proof.
  intros H w. specialize (H w). destruct (m w) as [[a|e] w']; simpl in *.
  - now left.
  - exact H.
Qed.

Lemma writes_last_bind (A B : Type) (m : M (world St) A)
  (f : A -> M (world St) B) :
  quiet m -> (forall a, writes_last (f a)) -> writes_last (bind m f).
Proof.
  intros Hm Hf w. unfold bind. specialize (Hm w).
  destruct (m w) as [[a|e] w']; simpl in *; [|exact Hm].
  specialize (Hf a w'). destruct (f a w') as [[b|e] w''].
  - unfold appends_at_most_one in *. now rewrite <- Hm.
  - now rewrite <- Hm.
Qed.

Ltac step_quiet :=
  first [ apply quiet_lift | apply quiet_JSON_parse | apply quiet_await
        | apply quiet_legacy_result | apply quiet_ret | apply quiet_throw ].

Lemma writes_last_dispatch (this : Server St) (input : jstring) :
  writes_last (dispatch this input).
Proof.
  unfold dispatch.
  repeat first
    [ apply writes_last_log
    | apply writes_last_quiet; step_quiet
    | match goal with
      | |- writes_last (if ?b then _ else _) => destruct b
      | |- writes_last (match ?o with Some _ => _ | None => _ end) =>
          destruct o
      end
    | apply writes_last_bind; [step_quiet|intros ?] ].
Qed.

Lemma writes_last_report (input : jstring) (e : exn) :
  writes_last (St := St) (report engine_message input e).
Proof.
  unfold report. apply writes_last_bind; [|intros id; apply writes_last_log].
  destruct (includes input (qlit "'id'")); [|apply quiet_ret].
  apply quiet_bind; [apply quiet_JSON_parse|intros ?; apply quiet_lift].
Qed.

(** One call: at most one serialized value is added to the output, none
    when the promise is rejected. *)
Lemma handleInput_appends (this : Server St) (input : jstring) (w : world St) :
  appends_at_most_one w (snd (handleInput engine_message this input w)) /\
  (forall e, fst (handleInput engine_message this input w) = Abrupt e ->
             stdout (snd (handleInput engine_message this input w)) = stdout w).
Proof.
  unfold handleInput, try_catch.
  pose proof (writes_last_dispatch this input w) as Hd.
  destruct (dispatch this input w) as [[u|e] w1]; simpl.
  - split; [exact Hd|discriminate].
  - pose proof (writes_last_report input e w1) as Hr.
    destruct (report engine_message input e w1) as [[u|e'] w2]; simpl.
    + split; [|discriminate]. unfold appends_at_most_one in *. now rewrite <- Hd.
    + split; [left|intros ? _]; now rewrite <- Hd.
Qed.

(** X3.  Whatever the line, the server and the handlers, [handleInput]
    leaves what was written before as it is and adds at most one line to it,
    a line that holds no raw newline; when its promise is rejected it has
    written nothing. *)
Theorem handleInput_writes_at_most_one_line :
  forall (this : Server St) (input : jstring) (w : world St),
    (stdout (snd (handleInput engine_message this input w)) = stdout w \/
     exists line,
       stdout (snd (handleInput engine_message this input w)) =
         stdout w ++ [line] /\
       has_newline line = false) /\
    (forall e, fst (handleInput engine_message this input w) = Abrupt e ->
               stdout (snd (handleInput engine_message this input w)) = stdout w).
Proof.
  intros this input w.
  destruct (handleInput_appends this input w) as [[H|[v H]] Hrej].
  - split; [now left|exact Hrej].
  - split; [right; exists (written v); split; [exact H|apply written_line]
           |exact Hrej].
Qed.

(** The [catch] block ends normally on every line that parses. *)
Lemma report_resolves (input : jstring) (message : value) (e : exn)
  (w : world St) :
  JSON.parse input = Some message ->
  exists w', report engine_message input e w = (Normal tt, w').
Proof.
  intros Hparse. unfold report, bind, JSON_parse, lift, ret, console_log_json.
  destruct (includes input (qlit "'id'")) eqn:Hid; [|eexists; reflexivity].
  rewrite Hparse.
  destruct message; simpl; try (eexists; reflexivity);
    rewrite (scalar_text_has_no_id input _ Hparse eq_refl eq_refl) in Hid;
    discriminate.
Qed.

(** X4.  [handleInput] rejects on exactly the lines that are not JSON and
    hold the name of an id in double quotes; on every other line it resolves,
    whatever the handlers do. *)
Theorem handleInput_rejects_iff :
  forall (this : Server St) (input : jstring) (w : world St),
    (exists e, fst (handleInput engine_message this input w) = Abrupt e) <->
    JSON.parse input = None /\ includes input (qlit "'id'") = true.
Proof.
  intros this input w. split.
  - intros [e He].
    destruct (JSON.parse input) as [message|] eqn:Hparse.
    + exfalso. unfold handleInput, try_catch in He.
      destruct (dispatch this input w) as [[u|e0] w1]; [discriminate|].
      destruct (report_resolves input message e0 w1 Hparse) as [w' Hr].
      rewrite Hr in He. discriminate.
    + split; [reflexivity|].
      unfold handleInput, try_catch, dispatch, bind, JSON_parse, throw, report
        in He.
      rewrite Hparse in He.
      destruct (includes input (qlit "'id'")); [reflexivity|discriminate].
  - intros [Hparse Hid].
    unfold handleInput, try_catch, dispatch, bind, JSON_parse, throw, report.
    rewrite Hparse, Hid. simpl. unfold bind, JSON_parse. rewrite Hparse.
    eexists; reflexivity.
Qed.


(** X5.  A line that is JSON but no object.  The text null is answered by
    one error envelope whose message is the TypeError of reading [method],
    with a null id; a number, a string, true, false and an array have no
    [method] and no [command], so nothing is written. *)
Theorem message_that_is_no_object :
  forall (this : Server St) (input : jstring) (message : value) (w : world St),
    JSON.parse input = Some message ->
    (is_nullish message = true ->
     handleInput engine_message this input w =
       (Normal tt,
        {| stdout := stdout w ++
             [written (error_envelope VNull
                         (engine_message (CannotRead message (lit "method"))))];
           ext := ext w |})) /\
    (is_nullish message = false -> (forall ps, message <> VObject ps) ->
     handleInput engine_message this input w = (Normal tt, w)).
Proof.
  intros this input message w Hparse. split.
  - intros Hnull.
    assert (Hid : includes input (qlit "'id'") = false)
      by (destruct message; try discriminate;
          exact (scalar_text_has_no_id input _ Hparse eq_refl eq_refl)).
    unfold handleInput, try_catch, dispatch, bind, JSON_parse, lift, ret.
    rewrite Hparse. unfold report, bind. rewrite Hid.
    destruct message; try discriminate; reflexivity.
  - intros Hnull Hobj.
    unfold handleInput, try_catch, dispatch, bind, JSON_parse, lift, ret.
    rewrite Hparse.
    destruct message; try discriminate; try reflexivity.
    exfalso. eapply Hobj. reflexivity.
Qed.



(** The [catch] block leaves the outer world alone. *)
Lemma report_ext (input : jstring) (e : exn) (w : world St) :
  ext (snd (report engine_message input e w)) = ext w.
Proof.
  unfold report, bind, JSON_parse, lift, ret, throw.
  destruct (includes input (qlit "'id'")); [|reflexivity].
  destruct (JSON.parse input) as [again|]; [|reflexivity].
  destruct (get again "id"); reflexivity.
Qed.

(** X8.  Which handler a message reaches.  Registering a list handler
    changes nothing for a message whose method is not [tools/list];
    registering a call handler changes nothing for a message that is neither
    a [tools/call] request nor a legacy command; and a message that is
    neither of the three leaves the world outside the transport as it was. *)
Theorem handlers_are_consulted_by_method :
  forall (this : Server St) (input : jstring) (message : value) (w : world St),
    JSON.parse input = Some message ->
    (consults_list message = false ->
     forall l : ListToolsHandler St,
       handleInput engine_message (setRequestHandler this (listTools l)) input w
       = handleInput engine_message this input w) /\
    (consults_call message = false ->
     forall c : CallToolHandler St,
       handleInput engine_message (setRequestHandler this (callTool c)) input w
       = handleInput engine_message this input w) /\
    (consults_list message = false -> consults_call message = false ->
     ext (snd (handleInput engine_message this input w)) = ext w).
Proof.
  intros this input message w Hparse.
  unfold consults_list, consults_call, recognized, protocol_methods.
  cbn [existsb].
  unfold handleInput, try_catch, dispatch, bind, JSON_parse, lift, ret.
  rewrite Hparse. unfold field.
  destruct (get message "method") as [method|e] eqn:Hmethod.
  - rewrite (get_field message method "method" "command" Hmethod).
    rewrite (get_field message method "method" "id" Hmethod).
    destruct (is_str method "initialize");
      [repeat split; intros; reflexivity|].
    destruct (is_str method "notifications/initialized");
      [repeat split; intros; reflexivity|].
    destruct (is_str method "tools/list");
      [repeat split; intros; discriminate|].
    destruct (is_str method "tools/call");
      [repeat split; intros; discriminate|].
    simpl. destruct (truthy (field message "command"));
      repeat split; intros; try discriminate; reflexivity.
  - repeat split; intros; try reflexivity. apply report_ext.
Qed.

(** X9.  JSON white space before and after a request changes nothing: a
    line that ends in a carriage return, as every line of a text with CR LF
    line ends does once cut at the newlines, is answered as the line without
    it. *)
Theorem surrounding_space_is_ignored :
  forall (this : Server St) (front input back : jstring) (message : value)
         (w : world St),
    forallb JSON.is_json_space front = true ->
    forallb JSON.is_json_space back = true ->
    JSON.parse input = Some message ->
    handleInput engine_message this (front ++ input ++ back) w =
    handleInput engine_message this input w.
Proof.
  intros this front input back message w Hf Hb Hparse.
  unfold handleInput, try_catch, dispatch, report, bind, JSON_parse.
  rewrite (parse_padded front back input Hf Hb).
  rewrite (includes_id_padded front back input Hf Hb).
  rewrite Hparse. reflexivity.
Qed.



End OutputFacts.

(** X11.  Where the input is cut into chunks does not matter: any sequence
    of reads from the empty buffer leaves the buffer, and hands over the
    lines, that one read of the whole text does. *)
Theorem chunks_are_read_as_one_text :
  forall chunks : list jstring,
    feed [] chunks = on_data [] (concat chunks).
Proof.
  intros chunks.
  destruct (feed_lines chunks [] eq_refl) as [lines [rest [Htext [Hall Hrun]]]].
  destruct (on_data_lines [] (concat chunks))
    as [lines' [rest' [Htext' [Hall' Hrun']]]].
  rewrite Hrun, Hrun'.
  assert (E : lines ++ [rest] = lines' ++ [rest']).
  { rewrite <- (split_join (lines ++ [rest])), <- (split_join (lines' ++ [rest']));
      try assumption; try (intros H; now apply app_eq_nil in H as [_ H]).
    now rewrite <- Htext, <- Htext'. }
  apply app_inj_tail in E as [-> ->]. reflexivity.
Qed.

(** ** The further transport properties on concrete lines *)

(** X5 at the text null, and at an array that holds the name of an id. *)
Lemma message_that_is_no_object_witness :
  let input := lit "null" in
  let list := qlit "[1,'id']" in
  JSON.parse input = Some VNull /\
  handleInput Fixture.wording Fixture.bare input Fixture.start =
    (Normal tt,
     {| stdout :=
          [qlit "{'jsonrpc':'2.0','id':null,'error':{'code':-32603,'message':'Cannot read properties (reading method)','data':{'suggestion':'Check input format'}}}"];
        ext := 0 |}) /\
  JSON.parse list = Some (VArray [VNat 1; VStr "id"]) /\
  handleInput Fixture.wording Fixture.bare list Fixture.start =
    (Normal tt, Fixture.start).
Proof.
  intros input list.
  assert (Hparse : JSON.parse input = Some VNull) by (vm_compute; reflexivity).
  assert (Hlist : JSON.parse list = Some (VArray [VNat 1; VStr "id"]))
    by (vm_compute; reflexivity).
  split; [exact Hparse|]. split; [|split; [exact Hlist|]].
  - destruct (message_that_is_no_object nat Fixture.wording Fixture.bare input _
                Fixture.start Hparse) as [Hnull _].
    rewrite (Hnull eq_refl). vm_compute. reflexivity.
  - destruct (message_that_is_no_object nat Fixture.wording Fixture.bare list _
                Fixture.start Hlist) as [_ Hother].
    apply (Hother eq_refl). intros ps. discriminate.
Defined.



(** X8 at an [initialize] request: registering either handler changes
    nothing, and no handler has counted a call. *)
Lemma handlers_are_consulted_by_method_witness :
  let input := qlit "{'jsonrpc':'2.0','id':1,'method':'initialize'}" in
  let listing : ListToolsHandler nat := fun n => (Normal (obj []), S n) in
  handleInput Fixture.wording
    (setRequestHandler Fixture.bare (listTools listing)) input Fixture.start =
  handleInput Fixture.wording Fixture.bare input Fixture.start /\
  handleInput Fixture.wording
    (setRequestHandler Fixture.bare (callTool (Fixture.answering (obj []))))
    input Fixture.start =
  handleInput Fixture.wording Fixture.bare input Fixture.start /\
  ext (snd (handleInput Fixture.wording (Fixture.with_call (obj [])) input
              Fixture.start)) = 0.
Proof.
  intros input listing.
  assert (Hparse : JSON.parse input =
            Some (obj [("jsonrpc", VStr "2.0"); ("id", VNat 1);
                       ("method", VStr "initialize")]))
    by (vm_compute; reflexivity).
  split; [|split].
  - destruct (handlers_are_consulted_by_method nat Fixture.wording Fixture.bare
                input _ Fixture.start Hparse) as [Hlist _].
    apply (Hlist eq_refl).
  - destruct (handlers_are_consulted_by_method nat Fixture.wording Fixture.bare
                input _ Fixture.start Hparse) as [_ [Hcall _]].
    apply (Hcall eq_refl).
  - destruct (handlers_are_consulted_by_method nat Fixture.wording
                (Fixture.with_call (obj [])) input _ Fixture.start Hparse)
      as [_ [_ Hext]].
    apply (Hext eq_refl eq_refl).
Defined.

(** X9 at a request that ends in a carriage return and starts with two
    blanks. *)
Lemma surrounding_space_is_ignored_witness :
  let input := qlit "{'jsonrpc':'2.0','id':3,'method':'tools/list'}" in
  handleInput Fixture.wording (Fixture.with_list (obj [("tools", VArray [])]))
    ([32%N; 32%N] ++ input ++ [13%N]) Fixture.start =
    (Normal tt,
     {| stdout := [qlit "{'jsonrpc':'2.0','id':3,'result':{'tools':[]}}"];
        ext := 1 |}).
Proof.
  intros input.
  assert (Hparse : JSON.parse input =
            Some (obj [("jsonrpc", VStr "2.0"); ("id", VNat 3);
                       ("method", VStr "tools/list")]))
    by (vm_compute; reflexivity).
  rewrite (surrounding_space_is_ignored nat Fixture.wording
             (Fixture.with_list (obj [("tools", VArray [])]))
             [32%N; 32%N] input [13%N] _ Fixture.start eq_refl eq_refl Hparse).
  vm_compute. reflexivity.
Defined.

(** ** The server of server.ts, end to end *)

Section ServerFacts.

Variable St : Type.
Variable engine_message : engine_error -> jstring.
Variable minus : value -> value -> value.
Variable tools : list (jstring * value).
Variable playwrightController : Playwright.PlaywrightController St.




Lemma unlit_lit (a : string) :
  string_of_list_ascii (map ascii_of_N (lit a)) = a.
Proof.
  unfold lit. rewrite map_map.
  rewrite (map_ext _ (fun c => c)) by apply ascii_N_embedding.
  rewrite map_id. apply string_of_list_ascii_of_string.
Qed.

Lemma VStr_inj (a b : string) : VStr a = VStr b -> a = b.
Proof.
  intros [= H]. now rewrite <- (unlit_lit a), <- (unlit_lit b), H.
Qed.

Lemma required_of_tool (name description : string)
  (properties : list (string * value)) (required : list string) :
  required_of (Catalogue.tool name description properties required) =
    map VStr required.
Proof.
  reflexivity.
Qed.

Lemma name_of_tool (name description : string)
  (properties : list (string * value)) (required : list string) :
  field (Catalogue.tool name description properties required) "name" =
    VStr name.
Proof.
  reflexivity.
Qed.

(** The tools with a required property, and the property. *)
Lemma required_pairs (key : jstring) (descriptor : value) (required : string) :
  In (key, descriptor) Catalogue.tools ->
  In (VStr required) (required_of descriptor) ->
  In (field descriptor "name", required)
    [(VStr "navigate", "url"); (VStr "type", "selector"); (VStr "type", "text");
     (VStr "click", "selector"); (VStr "moveMouse", "x");
     (VStr "moveMouse", "y"); (VStr "scroll", "x"); (VStr "scroll", "y");
     (VStr "screenshot", "path"); (VStr "getElementContent", "selector");
     (VStr "executeJavaScript", "script")].
Proof.
  intros Htool Hreq.
  unfold Catalogue.tools in Htool. cbn [map fst snd In] in Htool.
  repeat (destruct Htool as [Htool|Htool];
          [injection Htool as _ Hd; subst descriptor|]);
    try contradiction.
  all: unfold Catalogue.OPEN_BROWSER_TOOL, Catalogue.NAVIGATE_TOOL,
         Catalogue.TYPE_TOOL, Catalogue.CLICK_TOOL, Catalogue.MOVE_MOUSE_TOOL,
         Catalogue.SCROLL_TOOL, Catalogue.SCREENSHOT_TOOL,
         Catalogue.GET_PAGE_SOURCE_TOOL, Catalogue.GET_PAGE_TEXT_TOOL,
         Catalogue.GET_PAGE_TITLE_TOOL, Catalogue.GET_PAGE_URL_TOOL,
         Catalogue.GET_SCRIPTS_TOOL, Catalogue.GET_STYLESHEETS_TOOL,
         Catalogue.GET_META_TAGS_TOOL, Catalogue.GET_LINKS_TOOL,
         Catalogue.GET_IMAGES_TOOL, Catalogue.GET_FORMS_TOOL,
         Catalogue.GET_ELEMENT_CONTENT_TOOL,
         Catalogue.GET_ELEMENT_HIERARCHY_TOOL,
         Catalogue.EXECUTE_JAVASCRIPT_TOOL, Catalogue.CLOSE_BROWSER_TOOL in *.
  all: rewrite required_of_tool in Hreq; rewrite name_of_tool.
  all: cbn [map In] in Hreq.
  all: repeat (destruct Hreq as [Hreq|Hreq];
               [apply VStr_inj in Hreq; subst required|]);
    try contradiction.
  all: cbn [In]; tauto.
Qed.

(** The [switch] on a name written out: the tests of the labels before the
    one that matches are decided. *)
Ltac decide_labels :=
  repeat match goal with
         | |- context [is_str (VStr ?a) ?b] =>
             let r := eval vm_compute in (is_str (VStr a) b) in
             change (is_str (VStr a) b) with r
         end;
  cbv iota.

(** X14.  The schema and the handler agree on what is required: for every
    tool of the catalogue and every property its schema lists as required,
    a call whose arguments lack that property is refused by the handler
    with an error result, before the controller is reached. *)
Theorem required_arguments_are_enforced :
  forall (key : jstring) (descriptor arguments : value) (required : string)
         (s : St),
    In (key, descriptor) Catalogue.tools ->
    In (VStr required) (required_of descriptor) ->
    arguments <> VNull ->
    field (or_empty arguments) required = VUndefined ->
    exists text,
      callTool_handler engine_message minus playwrightController
        (call_request (field descriptor "name") arguments) s =
        (Normal (failure (VString text)), s).
Proof.
  intros key descriptor arguments required s Htool Hreq Hnn Habsent.
  pose proof (field_or_empty arguments) as Hget.
  pose proof (required_pairs key descriptor required Htool Hreq) as Hpair.
  rewrite callTool_handler_request.
  set (args := or_empty arguments) in *.
  cbn [In] in Hpair.
  repeat (destruct Hpair as [Hpair|Hpair];
          [injection Hpair as <- <-|]); try contradiction.
  all: unfold try_catch, tool_switch; decide_labels.
  all: repeat (unfold bind at 1; unfold lift at 1; rewrite Hget by assumption).
  all: rewrite Habsent; simpl; rewrite ?orb_true_r; eexists; reflexivity.
Qed.

(** X15.  The [= {}] of the handler stands in for absent arguments only: with
    [arguments: null] every tool that reads an argument answers with the
    TypeError of the read as an error result and does not reach the
    controller, and the tools that read none run as with no arguments. *)
Theorem null_arguments_are_not_defaulted :
  forall (name : value) (s : St),
    (In name (map VStr ["openBrowser"; "navigate"; "type"; "click"; "moveMouse";
                        "scroll"; "screenshot"; "getElementContent";
                        "getElementHierarchy"; "executeJavaScript"]) ->
     exists key,
       callTool_handler engine_message minus playwrightController
         (call_request name VNull) s =
         (Normal (failure (VString (lit "Error: " ++
                                    engine_message (CannotRead VNull key)))),
          s)) /\
    (In name (map VStr ["getPageSource"; "getPageText"; "getPageTitle";
                        "getPageUrl"; "getScripts"; "getStylesheets";
                        "getMetaTags"; "getLinks"; "getImages"; "getForms";
                        "closeBrowser"]) ->
     callTool_handler engine_message minus playwrightController
       (call_request name VNull) s =
     callTool_handler engine_message minus playwrightController
       (call_request name VUndefined) s).
Proof.
  intros name s. split; intros Hname; cbn [map In] in Hname;
    repeat (destruct Hname as [Hname|Hname]; [subst name|]);
    try contradiction;
    rewrite !callTool_handler_request; unfold try_catch, tool_switch;
    decide_labels.
  all: try reflexivity.
  all: unfold bind at 1; unfold lift at 1; simpl;
    rewrite tool_failure_on_engine; eexists; reflexivity.
Qed.


End ServerFacts.

(** ** The server of server.ts on concrete lines *)



(** X14 at [type] with a selector and no text: refused, and the controller
    has counted no call. *)
Lemma required_arguments_are_enforced_witness :
  callTool_handler Fixture.wording (fun _ _ => VNat 0)
    (Fixture.closed Fixture.navigation_failed)
    (call_request (VStr "type") (obj [("selector", VStr "#q")])) 0 =
    (Normal (failure (VStr "Selector and text are required")), 0).
Proof.
  destruct (required_arguments_are_enforced nat Fixture.wording
              (fun _ _ => VNat 0) (Fixture.closed Fixture.navigation_failed)
              (lit "type") Catalogue.TYPE_TOOL
              (obj [("selector", VStr "#q")]) "text" 0)
    as [text Hrun].
  - unfold Catalogue.tools. cbn [map In fst snd]. tauto.
  - right. left. reflexivity.
  - discriminate.
  - reflexivity.
  - change (field Catalogue.TYPE_TOOL "name") with (VStr "type") in Hrun.
    rewrite Hrun. vm_compute in Hrun. injection Hrun as <-. reflexivity.
Defined.

(** X15 at [click] and at [getPageTitle], with null arguments and the
    browser not open: the first does not reach the controller, the second
    does and gets its BrowserError. *)
Lemma null_arguments_are_not_defaulted_witness :
  Stage.handler true (VStr "click") VNull Stage.start =
    (Normal (failure (VStr "Error: Cannot read properties (reading selector)")),
     Stage.start) /\
  fst (Stage.handler true (VStr "getPageTitle") VNull Stage.start) =
    Normal (failure (VString (failure_text (lit "Failed to get page title")
                                (Some (lit "Check if the page is loaded"))))).
Proof.
  unfold Stage.handler. split.
  - destruct (null_arguments_are_not_defaulted _ Fixture.wording
                (fun _ _ => VNat 0) (Stage.controller true)
                (VStr "click") Stage.start) as [Hreads _].
    destruct Hreads as [key Hrun]; [cbn [map In]; tauto|].
    rewrite Hrun. vm_compute in Hrun. injection Hrun as Hkey.
    change (lit "selector" ++ [41%N] = key ++ [41%N]) in Hkey.
    apply app_inv_tail in Hkey. subst key. reflexivity.
  - destruct (null_arguments_are_not_defaulted _ Fixture.wording
                (fun _ _ => VNat 0) (Stage.controller true)
                (VStr "getPageTitle") Stage.start) as [_ Hkeeps].
    rewrite Hkeeps; [|cbn [map In]; tauto].
    vm_compute. reflexivity.
Defined.
(** ** The controller *)

Section ControllerFacts.

Variables Browser BrowserContext Page ElementHandle Ext : Type.
Variable engine_message : engine_error -> jstring.
Variable minus : value -> value -> value.
Variable playwright :
  Controller.PlaywrightApi Browser BrowserContext Page ElementHandle Ext.

Lemma only_reported_refl (w : Controller.World Browser BrowserContext Page Ext) :
  only_reported w w.
Proof.
  repeat split.
Qed.

(** A method that starts with the guard throws its BrowserError when the
    browser is not there, and does nothing else. *)
Lemma method_needs_browser (A : Type) (label : string)
  (failure : Controller.raised -> Index.BrowserError)
  (rest : unit -> Controller.Body Browser BrowserContext Page Ext A)
  (k : A -> M (Controller.World Browser BrowserContext Page Ext) value)
  (w : Controller.World Browser BrowserContext Page Ext) :
  Controller.isInitialized playwright w = false ->
  declined w
    (bind (Playwright.call
             (Controller.method label failure
                (Controller.and_then (Controller.need_browser playwright) rest)))
       k).
Proof.
  intros H.
  unfold declined, bind, Playwright.call, Controller.method,
    Controller.and_then, Controller.need_browser.
  rewrite H. simpl. repeat split.
Qed.

Lemma method_needs_page (A : Type) (label : string)
  (failure : Controller.raised -> Index.BrowserError)
  (rest : Page -> Controller.Body Browser BrowserContext Page Ext A)
  (k : A -> M (Controller.World Browser BrowserContext Page Ext) value)
  (w : Controller.World Browser BrowserContext Page Ext) :
  Controller.isInitialized playwright w = false ->
  declined w
    (bind (Playwright.call
             (Controller.method label failure
                (Controller.and_then (Controller.need_page playwright) rest)))
       k).
Proof.
  intros H.
  unfold declined, bind, Playwright.call, Controller.method,
    Controller.and_then, Controller.need_page.
  destruct (Controller.page (Controller.state (Controller.this w)));
    [rewrite H|]; simpl; repeat split.
Qed.

Lemma declined_failure (w : Controller.World Browser BrowserContext Page Ext)
  (text : value) :
  declined w (ret (failure text)).
Proof.
  split; [now exists text|apply only_reported_refl].
Qed.

Lemma declined_get (w : Controller.World Browser BrowserContext Page Ext)
  (v : value) (key : string)
  (k : value -> M (Controller.World Browser BrowserContext Page Ext) value) :
  (forall a, declined w (k a)) -> declined w (bind (lift (get v key)) k).
Proof.
  intros H. unfold declined, bind, lift.
  destruct (get v key) as [a|e] eqn:E; [apply H|].
  destruct v; try discriminate; injection E as <-; apply only_reported_refl.
Qed.

Lemma declined_interpolate
  (w : Controller.World Browser BrowserContext Page Ext) (v : value)
  (k : jstring -> M (Controller.World Browser BrowserContext Page Ext) value) :
  (forall a, declined w (k a)) -> declined w (bind (lift (interpolate v)) k).
Proof.
  intros H. unfold declined, bind, lift, interpolate.
  destruct (to_string v); [apply H|apply only_reported_refl].
Qed.

(** The [switch] before the browser is open, on any name but those of the
    two tools that open and close it. *)
Lemma tool_switch_declined (name args : value)
  (w : Controller.World Browser BrowserContext Page Ext) :
  Controller.isInitialized playwright w = false ->
  is_str name "openBrowser" = false ->
  is_str name "closeBrowser" = false ->
  declined w
    (tool_switch minus
       (Controller.playwrightController engine_message playwright) name args).
Proof.
  intros Hclosed Hopen Hclose.
  unfold tool_switch. rewrite Hopen, Hclose.
  cbn [Controller.playwrightController
         Playwright.navigate Playwright.click Playwright.type
         Playwright.moveMouse Playwright.scroll Playwright.screenshot
         Playwright.getPageSource Playwright.getPageText
         Playwright.getPageTitle Playwright.getPageUrl Playwright.getScripts
         Playwright.getStylesheets Playwright.getMetaTags Playwright.getLinks
         Playwright.getImages Playwright.getForms
         Playwright.getElementContent Playwright.executeJavaScript
         Playwright.getElementHierarchy].
  unfold Controller.navigate, Controller.click, Controller.type,
    Controller.moveMouse, Controller.scroll, Controller.screenshot,
    Controller.getPageSource, Controller.getPageText, Controller.getPageTitle,
    Controller.getPageUrl, Controller.getScripts, Controller.getStylesheets,
    Controller.getMetaTags, Controller.getLinks, Controller.getImages,
    Controller.getForms, Controller.getElementContent,
    Controller.executeJavaScript, Controller.getElementHierarchy.
  cbv zeta.
  repeat first
    [ apply declined_failure
    | apply method_needs_browser; exact Hclosed
    | apply method_needs_page; exact Hclosed
    | match goal with
      | |- declined _ (if ?b then _ else _) => destruct b
      end
    | apply declined_get; intros ?
    | apply declined_interpolate; intros ? ].
Qed.

(** X17.  Until the browser is open, every call of a tool other than
    [openBrowser] and [closeBrowser], whatever its name and arguments, is
    answered by an error result, and the controller has done nothing but
    report to standard error: its state, its output and the world of the
    browser are as they were. *)
Theorem page_tools_need_an_open_browser :
  forall (name arguments : value)
         (w : Controller.World Browser BrowserContext Page Ext),
    Controller.isInitialized playwright w = false ->
    is_str name "openBrowser" = false ->
    is_str name "closeBrowser" = false ->
    exists text w',
      callTool_handler engine_message minus
        (Controller.playwrightController engine_message playwright)
        (call_request name arguments) w = (Normal (failure text), w') /\
      only_reported w w'.
Proof.
  intros name arguments w Hclosed Hopen Hclose.
  rewrite callTool_handler_request. unfold try_catch.
  pose proof (tool_switch_declined name (or_empty arguments) w
                Hclosed Hopen Hclose) as H.
  unfold declined in H.
  destruct (tool_switch _ _ _ _ w) as [[r|[e|m sg|v]] w'].
  - destruct H as [[text ->] Hsame]. eauto.
  - rewrite tool_failure_on_engine. eauto.
  - rewrite tool_failure_on_error. eauto.
  - contradiction.
Qed.

(** *** Silence *)

Lemma silence_const (R : Type) (r : R) :
  keeps_silence
    (fun w : Controller.World Browser BrowserContext Page Ext => (r, w)).
Proof.
  intros w H. now split.
Qed.

Lemma silence_read (v : value) (key : string) :
  keeps_silence (Controller.read (Browser := Browser)
                   (BrowserContext := BrowserContext) (Page := Page)
                   (Ext := Ext) v key).
Proof.
  intros w H. unfold Controller.read. destruct v; now split.
Qed.

Lemma silence_await (A : Type) (call : Controller.Api Ext A) :
  keeps_silence (Controller.await (Browser := Browser)
                   (BrowserContext := BrowserContext) (Page := Page) call).
Proof.
  intros w H. unfold Controller.await.
  destruct (call (Controller.world w)) as [[a|m] ext]; now split.
Qed.

Lemma silence_log (args : list value) :
  keeps_silence (Controller.log (Browser := Browser)
                   (BrowserContext := BrowserContext) (Page := Page)
                   (Ext := Ext) args).
Proof.
  intros w H. unfold Controller.log.
  unfold debug_off in H. apply negb_true_iff in H. rewrite H.
  split; [reflexivity|]. unfold debug_off. simpl. now rewrite H.
Qed.

Lemma silence_set_state
  (s : Controller.BrowserState Browser BrowserContext Page) :
  truthy (Controller.debug s) = false ->
  keeps_silence (Controller.set_state (Ext := Ext) s).
Proof.
  intros Hs w H. unfold Controller.set_state, debug_off. simpl.
  now rewrite Hs.
Qed.

Lemma silence_set_position (p : Controller.Position) :
  keeps_silence (Controller.set_position (Browser := Browser)
                   (BrowserContext := BrowserContext) (Page := Page)
                   (Ext := Ext) p).
Proof.
  intros w H. now split.
Qed.

Lemma silence_and_then (A B : Type)
  (m : Controller.Body Browser BrowserContext Page Ext A)
  (f : A -> Controller.Body Browser BrowserContext Page Ext B) :
  keeps_silence m -> (forall a, keeps_silence (f a)) ->
  keeps_silence (Controller.and_then m f).
Proof.
  intros Hm Hf w H. unfold Controller.and_then.
  destruct (Hm w H) as [Hout Hoff].
  destruct (m w) as [[a|e] w1]; simpl in *; [|now split].
  destruct (Hf a w1 Hoff) as [Hout' Hoff']. split; [congruence|exact Hoff'].
Qed.

(** After a read of the state, the state read has its flag off. *)
Lemma silence_get_state (B : Type)
  (f : Controller.BrowserState Browser BrowserContext Page ->
       Controller.Body Browser BrowserContext Page Ext B) :
  (forall s, truthy (Controller.debug s) = false -> keeps_silence (f s)) ->
  keeps_silence (Controller.and_then (Controller.get_state (Ext := Ext)) f).
Proof.
  intros Hf w H. unfold Controller.and_then, Controller.get_state.
  apply Hf; [|exact H].
  unfold debug_off in H. now apply negb_true_iff in H.
Qed.

Lemma silence_get_position (B : Type)
  (f : Controller.Position ->
       Controller.Body Browser BrowserContext Page Ext B) :
  (forall p, keeps_silence (f p)) ->
  keeps_silence (Controller.and_then (Controller.get_position (Ext := Ext)) f).
Proof.
  intros Hf w H. unfold Controller.and_then, Controller.get_position.
  now apply Hf.
Qed.

Lemma silence_method (A : Type) (label : string)
  (failure : Controller.raised -> Index.BrowserError)
  (body : Controller.Body Browser BrowserContext Page Ext A) :
  keeps_silence body -> keeps_silence (Controller.method label failure body).
Proof.
  intros Hb w H. unfold Controller.method.
  destruct (Hb w H) as [Hout Hoff].
  destruct (body w) as [[a|e] w1]; simpl in *; now split.
Qed.

Lemma silence_need_browser :
  keeps_silence (Controller.need_browser playwright).
Proof.
  intros w H. unfold Controller.need_browser.
  destruct (Controller.isInitialized playwright w); now split.
Qed.

Lemma silence_need_page : keeps_silence (Controller.need_page playwright).
Proof.
  intros w H. unfold Controller.need_page.
  destruct (Controller.page (Controller.state (Controller.this w)));
    [destruct (Controller.isInitialized playwright w)|]; now split.
Qed.

Ltac silence :=
  repeat first
    [ apply silence_const
    | apply silence_need_browser
    | apply silence_need_page
    | apply silence_read
    | apply silence_await
    | apply silence_log
    | apply silence_set_position
    | apply silence_set_state; simpl; assumption
    | apply silence_set_state; reflexivity
    | apply silence_method
    | apply silence_get_state; intros ? ?
    | apply silence_get_position; intros ?
    | apply silence_and_then; [|intros ?]
    | match goal with
      | |- keeps_silence (if ?b then _ else _) => destruct b
      | |- keeps_silence (match ?o with Some _ => _ | None => _ end) =>
          destruct o
      end ].

(** Every method of the class but [openBrowser] keeps silence. *)
Lemma methods_keep_silence :
  keeps_silence (Controller.closeBrowser playwright) /\
  (forall a, keeps_silence (Controller.navigate playwright a)) /\
  (forall a, keeps_silence (Controller.click playwright a)) /\
  (forall a b, keeps_silence (Controller.type playwright a b)) /\
  (forall a b, keeps_silence (Controller.moveMouse playwright a b)) /\
  (forall a b c, keeps_silence (Controller.scroll playwright a b c)) /\
  (forall a, keeps_silence (Controller.screenshot playwright a)) /\
  keeps_silence (Controller.getPageSource playwright) /\
  keeps_silence (Controller.getPageText playwright) /\
  keeps_silence (Controller.getPageTitle playwright) /\
  keeps_silence (Controller.getPageUrl playwright) /\
  keeps_silence (Controller.getScripts playwright) /\
  keeps_silence (Controller.getStylesheets playwright) /\
  keeps_silence (Controller.getMetaTags playwright) /\
  keeps_silence (Controller.getLinks playwright) /\
  keeps_silence (Controller.getImages playwright) /\
  keeps_silence (Controller.getForms playwright) /\
  (forall a, keeps_silence (Controller.getElementContent playwright a)) /\
  (forall a, keeps_silence (Controller.executeJavaScript playwright a)) /\
  (forall a b c d,
     keeps_silence (Controller.getElementHierarchy playwright a b c d)).
Proof.
  repeat apply conj; intros;
    unfold Controller.closeBrowser, Controller.navigate, Controller.click,
      Controller.type, Controller.moveMouse, Controller.scroll,
      Controller.screenshot, Controller.getPageSource, Controller.getPageText,
      Controller.getPageTitle, Controller.getPageUrl, Controller.getScripts,
      Controller.getStylesheets, Controller.getMetaTags, Controller.getLinks,
      Controller.getImages, Controller.getForms, Controller.getElementContent,
      Controller.executeJavaScript, Controller.getElementHierarchy,
      Controller.on_page, Controller.close_if, Controller.pure,
      Controller.raise;
    cbv zeta; silence.
Qed.

Lemma truthy_default (d : value) :
  truthy d = false -> truthy (Controller.default_to (VBool false) d) = false.
Proof.
  unfold Controller.default_to. now destruct (is_undefined d).
Qed.

(** [openBrowser] keeps silence when it is not asked to debug. *)
Lemma openBrowser_keeps_silence (headless debug' : value) :
  truthy debug' = false ->
  keeps_silence (Controller.openBrowser engine_message playwright headless debug').
Proof.
  intros Hd. apply truthy_default in Hd.
  unfold Controller.openBrowser. cbv zeta.
  apply silence_method.
  apply silence_get_state; intros s Hs.
  apply silence_and_then; [apply silence_set_state; exact Hd|intros _].
  apply silence_and_then; [apply silence_log|intros _].
  apply silence_and_then.
  { intros w H. now split. }
  intros running. destruct running; silence.
Qed.

Lemma silence_ret (A : Type) (a : A) :
  keeps_silence
    (ret (W := Controller.World Browser BrowserContext Page Ext) a).
Proof.
  apply silence_const.
Qed.

Lemma silence_lift (A : Type) (c : completion A) :
  keeps_silence
    (lift (W := Controller.World Browser BrowserContext Page Ext) c).
Proof.
  apply silence_const.
Qed.

Lemma silence_bind (A B : Type)
  (m : M (Controller.World Browser BrowserContext Page Ext) A)
  (f : A -> M (Controller.World Browser BrowserContext Page Ext) B) :
  keeps_silence m -> (forall a, keeps_silence (f a)) ->
  keeps_silence (bind m f).
Proof.
  intros Hm Hf w H. unfold bind.
  destruct (Hm w H) as [Hout Hoff].
  destruct (m w) as [[a|e] w1]; simpl in *; [|now split].
  destruct (Hf a w1 Hoff) as [Hout' Hoff']. split; [congruence|exact Hoff'].
Qed.

Lemma silence_bind_get (B : Type) (v : value) (key : string)
  (f : value -> M (Controller.World Browser BrowserContext Page Ext) B) :
  (forall a, a = field v key -> keeps_silence (f a)) ->
  keeps_silence (bind (lift (get v key)) f).
Proof.
  intros Hf w H. unfold bind, lift, field in *.
  destruct (get v key) as [a|e]; [now apply Hf|now split].
Qed.

Lemma silence_call (A : Type)
  (op : Playwright.Op (Controller.World Browser BrowserContext Page Ext) A) :
  keeps_silence op -> keeps_silence (Playwright.call op).
Proof.
  intros Hop w H. unfold Playwright.call.
  destruct (Hop w H) as [Hout Hoff].
  destruct (op w) as [[a|e] w1]; now split.
Qed.

Lemma silence_tool_failure (e : exn) :
  keeps_silence
    (tool_failure (St := Controller.World Browser BrowserContext Page Ext)
       engine_message e).
Proof.
  unfold tool_failure.
  repeat first
    [ apply silence_ret
    | apply silence_lift
    | match goal with
      | |- keeps_silence (if ?b then _ else _) => destruct b
      end
    | apply silence_bind; [|intros ?] ].
Qed.

Lemma silence_try_catch (A : Type)
  (body : M (Controller.World Browser BrowserContext Page Ext) A)
  (handler : exn -> M (Controller.World Browser BrowserContext Page Ext) A) :
  keeps_silence body -> (forall e, keeps_silence (handler e)) ->
  keeps_silence (try_catch body handler).
Proof.
  intros Hb Hh w H. unfold try_catch.
  destruct (Hb w H) as [Hout Hoff].
  destruct (body w) as [[a|e] w1]; simpl in *; [now split|].
  destruct (Hh e w1 Hoff) as [Hout' Hoff']. split; [congruence|exact Hoff'].
Qed.

Lemma tool_switch_keeps_silence (name args : value) :
  (is_str name "openBrowser" = true -> truthy (field args "debug") = false) ->
  keeps_silence
    (tool_switch minus
       (Controller.playwrightController engine_message playwright) name args).
Proof.
  intros Hdebug.
  destruct methods_keep_silence
    as (H1 & H2 & H3 & H4 & H5 & H6 & H7 & H8 & H9 & H10 & H11 & H12 & H13
        & H14 & H15 & H16 & H17 & H18 & H19 & H20).
  unfold tool_switch.
  destruct (is_str name "openBrowser").
  - apply silence_bind_get; intros headless _.
    apply silence_bind_get; intros debug' ->.
    apply silence_bind; [|intros ?; apply silence_ret].
    apply silence_call. apply openBrowser_keeps_silence. now apply Hdebug.
  - clear Hdebug.
    cbn [Controller.playwrightController Playwright.closeBrowser
           Playwright.navigate Playwright.click Playwright.type
           Playwright.moveMouse Playwright.scroll Playwright.screenshot
           Playwright.getPageSource Playwright.getPageText
           Playwright.getPageTitle Playwright.getPageUrl Playwright.getScripts
           Playwright.getStylesheets Playwright.getMetaTags Playwright.getLinks
           Playwright.getImages Playwright.getForms
           Playwright.getElementContent Playwright.executeJavaScript
           Playwright.getElementHierarchy].
    repeat first
      [ match goal with
        | |- keeps_silence (if ?b then _ else _) => destruct b
        | |- keeps_silence (ret _) => apply silence_ret
        | |- keeps_silence (lift _) => apply silence_lift
        | |- keeps_silence (Playwright.call _) =>
            apply silence_call; solve [auto]
        | |- keeps_silence (bind _ _) => apply silence_bind; [|intros ?]
        end ].
Qed.

(** X18.  With the debug flag off the controller writes nothing to standard
    output, where the envelopes of the protocol go, and the flag stays off:
    whatever tool is called with whatever arguments, as long as
    [openBrowser] is not asked to debug. *)
Theorem controller_is_silent_without_debug :
  forall (name arguments : value)
         (w : Controller.World Browser BrowserContext Page Ext),
    debug_off w = true ->
    (is_str name "openBrowser" = true ->
     truthy (field (or_empty arguments) "debug") = false) ->
    Controller.stdout
      (snd (callTool_handler engine_message minus
              (Controller.playwrightController engine_message playwright)
              (call_request name arguments) w)) = Controller.stdout w /\
    debug_off
      (snd (callTool_handler engine_message minus
              (Controller.playwrightController engine_message playwright)
              (call_request name arguments) w)) = true.
Proof.
  intros name arguments w Hoff Hdebug.
  rewrite callTool_handler_request.
  apply (silence_try_catch _ _ _
           (tool_switch_keeps_silence name (or_empty arguments) Hdebug)
           silence_tool_failure w Hoff).
Qed.

(** *** Opening and closing *)

(** X19.  [closeBrowser].  When it resolves, the state is the closed one
    (no browser, no context, no page, the debug flag off) and the controller
    is not initialized; when a [close] rejects, it throws its BrowserError
    and the state is left as it was, handles and all.  Either way the only
    line it can write is the one that announces the closing: the flag is off
    by the time "Browser closed" would be written.  With nothing open it
    resolves without a call to Playwright. *)
Theorem closeBrowser_resets_the_controller :
  forall w : Controller.World Browser BrowserContext Page Ext,
    (forall w', Controller.closeBrowser playwright w = (inl tt, w') ->
       Controller.state (Controller.this w') = closed_state _ _ _ /\
       Controller.isInitialized playwright w' = false) /\
    (forall e w', Controller.closeBrowser playwright w = (inr e, w') ->
       e = Controller.BrowserError "Failed to close browser"
             "The browser might have already been closed" /\
       Controller.state (Controller.this w') =
         Controller.state (Controller.this w)) /\
    Controller.stdout (snd (Controller.closeBrowser playwright w)) =
      Controller.stdout w ++
      (if truthy (Controller.debug (Controller.state (Controller.this w)))
       then [written (obj [("type", VStr "debug");
                           ("message", VStr "Closing browser")])]
       else []) /\
    (Controller.browser (Controller.state (Controller.this w)) = None ->
     Controller.context (Controller.state (Controller.this w)) = None ->
     Controller.page (Controller.state (Controller.this w)) = None ->
     exists w', Controller.closeBrowser playwright w = (inl tt, w') /\
                Controller.world w' = Controller.world w).
Proof.
  intros w.
  unfold Controller.closeBrowser, Controller.method, Controller.and_then,
    Controller.log, Controller.get_state, Controller.close_if,
    Controller.set_state, Controller.await, Controller.pure,
    Controller.isInitialized.
  destruct w as [[[b c p d] pos] out err ext]. simpl.
  destruct (truthy d); simpl;
    (destruct p as [p|]; simpl;
     [destruct (Controller.close_page playwright p ext) as [[[]|m1] ext1]|];
     simpl;
     [destruct c as [c|]; simpl;
      [destruct (Controller.close_context playwright c ext1) as [[[]|m2] ext2]|];
      simpl;
      [destruct b as [b|]; simpl;
       [destruct (Controller.close_browser playwright b ext2)
          as [[[]|m3] ext3]|];
       simpl| |destruct b as [b|]; simpl;
       [destruct (Controller.close_browser playwright b ext1)
          as [[[]|m3] ext3]|];
       simpl]
     | |destruct c as [c|]; simpl;
      [destruct (Controller.close_context playwright c ext) as [[[]|m2] ext2]|];
      simpl;
      [destruct b as [b|]; simpl;
       [destruct (Controller.close_browser playwright b ext2)
          as [[[]|m3] ext3]|];
       simpl| |destruct b as [b|]; simpl;
       [destruct (Controller.close_browser playwright b ext)
          as [[[]|m3] ext3]|];
       simpl]]).
  all: rewrite ?app_nil_r.
  all: repeat apply conj;
    try (intros w' [= <-]; split; reflexivity);
    try (intros e w' [= <- <-]; split; reflexivity);
    try (intros; discriminate);
    try reflexivity;
    try (intros _ _ _; eexists; split; reflexivity).
Qed.

(** A call of [log] changes nothing but the output. *)
Lemma log_step (args : list value)
  (w : Controller.World Browser BrowserContext Page Ext) :
  exists out,
    Controller.log args w =
      (inl tt,
       {| Controller.this := Controller.this w; Controller.stdout := out;
          Controller.stderr := Controller.stderr w;
          Controller.world := Controller.world w |}).
Proof.
  unfold Controller.log.
  destruct (truthy (Controller.debug (Controller.state (Controller.this w)))).
  - eexists. reflexivity.
  - exists (Controller.stdout w). now destruct w.
Qed.

Ltac step_log :=
  match goal with
  | |- context [Controller.log ?a ?w] =>
      let out := fresh "out" in
      let E := fresh "E" in
      destruct (log_step a w) as [out E]; rewrite E; clear E;
      cbn [Controller.this Controller.stdout Controller.stderr
             Controller.world Controller.state Controller.browser
             Controller.context Controller.page Controller.debug
             Controller.currentMousePosition]
  end.

(** [openBrowser] on a browser that is connected. *)
Lemma openBrowser_when_connected (headless debug' : value) (b : Browser)
  (w : Controller.World Browser BrowserContext Page Ext) :
  Controller.browser (Controller.state (Controller.this w)) = Some b ->
  Controller.isConnected playwright b (Controller.world w) = true ->
  exists out,
    Controller.openBrowser engine_message playwright headless debug' w =
      (inl tt,
       {| Controller.this :=
            {| Controller.state :=
                 {| Controller.browser := Some b;
                    Controller.context :=
                      Controller.context (Controller.state (Controller.this w));
                    Controller.page :=
                      Controller.page (Controller.state (Controller.this w));
                    Controller.debug :=
                      Controller.default_to (VBool false) debug' |};
               Controller.currentMousePosition :=
                 Controller.currentMousePosition (Controller.this w) |};
          Controller.stdout := out;
          Controller.stderr := Controller.stderr w;
          Controller.world := Controller.world w |}).
Proof.
  intros Hb Hc.
  unfold Controller.openBrowser, Controller.method, Controller.and_then,
    Controller.get_state, Controller.set_state.
  cbn [Controller.this Controller.stdout Controller.stderr
         Controller.world Controller.state Controller.browser
         Controller.context Controller.page Controller.debug
         Controller.currentMousePosition].
  rewrite Hb. step_log. rewrite Hc. step_log.
  eexists. reflexivity.
Qed.

(** X20.  [openBrowser] on a browser that is connected launches nothing: it
    resolves, the handles and the world of the browser are as they were,
    and so is the answer of [isInitialized]; the debug flag is set all the
    same. *)
Theorem openBrowser_keeps_a_connected_browser :
  forall (headless debug' : value) (b : Browser)
         (w : Controller.World Browser BrowserContext Page Ext),
    Controller.browser (Controller.state (Controller.this w)) = Some b ->
    Controller.isConnected playwright b (Controller.world w) = true ->
    exists w',
      Controller.openBrowser engine_message playwright headless debug' w =
        (inl tt, w') /\
      Controller.world w' = Controller.world w /\
      Controller.browser (Controller.state (Controller.this w')) = Some b /\
      Controller.context (Controller.state (Controller.this w')) =
        Controller.context (Controller.state (Controller.this w)) /\
      Controller.page (Controller.state (Controller.this w')) =
        Controller.page (Controller.state (Controller.this w)) /\
      Controller.debug (Controller.state (Controller.this w')) =
        Controller.default_to (VBool false) debug' /\
      Controller.isInitialized playwright w' =
        Controller.isInitialized playwright w.
Proof.
  intros headless debug' b w Hb Hc.
  destruct (openBrowser_when_connected headless debug' b w Hb Hc) as [out H].
  eexists. split; [exact H|].
  unfold Controller.isInitialized. simpl. rewrite Hb. repeat split.
Qed.

(** X21.  A launch that fails after the browser has started leaves the
    controller half open.  When [chromium.launch] resolves and [newContext]
    rejects, [openBrowser] throws "Failed to launch browser" with the
    message of the rejection as technical details, and the browser stays in
    the state with no context and no page.  While that browser is connected,
    every later [openBrowser] resolves without creating either, so the
    controller stays uninitialized until [closeBrowser]. *)
Theorem a_failed_launch_leaves_the_browser_half_open :
  forall (headless debug' : value) (b : Browser) (m : jstring) (ext1 ext2 : Ext)
         (w : Controller.World Browser BrowserContext Page Ext),
    Controller.browser (Controller.state (Controller.this w)) = None ->
    Controller.context (Controller.state (Controller.this w)) = None ->
    Controller.launch playwright (Controller.default_to (VBool false) headless)
      (Controller.world w) = (inl b, ext1) ->
    Controller.newContext playwright b ext1 = (inr m, ext2) ->
    exists w1,
      Controller.openBrowser engine_message playwright headless debug' w =
        (inr {| Index.message := lit "Failed to launch browser";
                Index.suggestion :=
                  Some (lit "Technical details: " ++
                        match m with [] => lit "Unknown error" | _ => m end) |},
         w1) /\
      Controller.browser (Controller.state (Controller.this w1)) = Some b /\
      Controller.context (Controller.state (Controller.this w1)) = None /\
      Controller.world w1 = ext2 /\
      (Controller.isConnected playwright b ext2 = true ->
       forall again debug'' : value,
         exists w2,
           Controller.openBrowser engine_message playwright again debug'' w1 =
             (inl tt, w2) /\
           Controller.isInitialized playwright w2 = false /\
           Controller.world w2 = ext2).
Proof.
  intros headless debug' b m ext1 ext2 w Hb Hc Hlaunch Hcontext.
  assert (Hfirst : exists out err,
    Controller.openBrowser engine_message playwright headless debug' w =
      (inr {| Index.message := lit "Failed to launch browser";
              Index.suggestion :=
                Some (lit "Technical details: " ++
                      match m with [] => lit "Unknown error" | _ => m end) |},
       {| Controller.this :=
            {| Controller.state :=
                 {| Controller.browser := Some b;
                    Controller.context := None;
                    Controller.page :=
                      Controller.page (Controller.state (Controller.this w));
                    Controller.debug :=
                      Controller.default_to (VBool false) debug' |};
               Controller.currentMousePosition :=
                 Controller.currentMousePosition (Controller.this w) |};
          Controller.stdout := out;
          Controller.stderr := err;
          Controller.world := ext2 |})).
  { unfold Controller.openBrowser, Controller.method, Controller.and_then,
      Controller.get_state, Controller.set_state,
      Controller.await, Controller.message_of.
    cbn [Controller.this Controller.stdout Controller.stderr
           Controller.world Controller.state Controller.browser
           Controller.context Controller.page Controller.debug
           Controller.currentMousePosition].
    rewrite Hb, Hc. step_log. step_log. rewrite Hlaunch. step_log.
    rewrite Hcontext. eexists _, _. reflexivity. }
  destruct Hfirst as [out [err Hfirst]].
  match type of Hfirst with _ = (_, ?w1) => exists w1 end.
  split; [exact Hfirst|]. simpl. repeat split.
  intros Hconnected again debug''.
  match type of Hfirst with
  | _ = (_, ?w1) =>
      destruct (openBrowser_when_connected again debug'' b w1 eq_refl
                  Hconnected) as [out' Hagain]
  end.
  eexists. split; [exact Hagain|]. split; reflexivity.
Qed.

End ControllerFacts.
(** ** The controller on a concrete browser *)

(** X17 at [navigate] before any [openBrowser]: an error result, with the
    BrowserError of [navigate] as text; Playwright has seen no call. *)
Lemma page_tools_need_an_open_browser_witness :
  Stage.handler true (VStr "navigate") (obj [("url", VStr "about:blank")])
    Stage.start =
    (Normal (failure (VString (failure_text (lit "Failed to navigate")
                                 (Some (lit "Check if the URL is valid and accessible"))))),
     {| Controller.this := Controller.new_PlaywrightController unit unit unit;
        Controller.stdout := [];
        Controller.stderr :=
          [("Navigation error:",
            Controller.Failed (lit "Browser not initialized"))];
        Controller.world := 0 |}).
Proof.
  destruct (page_tools_need_an_open_browser unit unit unit unit nat
              Fixture.wording (fun _ _ => VNat 0) (Stage.playwright true)
              (VStr "navigate") (obj [("url", VStr "about:blank")])
              Stage.start eq_refl eq_refl eq_refl)
    as [text [w' [Hrun _]]].
  unfold Stage.handler, Stage.controller. rewrite Hrun.
  vm_compute in Hrun. injection Hrun as <- <-. vm_compute. reflexivity.
Defined.

(** X18 at [openBrowser] without [debug], from the start: the browser is
    opened and nothing is written. *)
Lemma controller_is_silent_without_debug_witness :
  fst (Stage.handler true (VStr "openBrowser") (obj [("headless", VBool true)])
         Stage.start) =
    Normal (success (VStr "Browser opened successfully")) /\
  Controller.stdout
    (snd (Stage.handler true (VStr "openBrowser")
            (obj [("headless", VBool true)]) Stage.start)) = [] /\
  debug_off
    (snd (Stage.handler true (VStr "openBrowser")
            (obj [("headless", VBool true)]) Stage.start)) = true.
Proof.
  split; [vm_compute; reflexivity|].
  apply (controller_is_silent_without_debug unit unit unit unit nat
           Fixture.wording (fun _ _ => VNat 0) (Stage.playwright true)
           (VStr "openBrowser") (obj [("headless", VBool true)]) Stage.start);
    reflexivity.
Defined.

(** X20 at a second [openBrowser], this time with [debug]: three calls to
    Playwright were made by the first and none by the second, which sets the
    flag. *)
Lemma openBrowser_keeps_a_connected_browser_witness :
  let opened := snd (Stage.handler true (VStr "openBrowser") (obj []) Stage.start) in
  Controller.world opened = 3 /\
  exists w',
    Controller.openBrowser Fixture.wording (Stage.playwright true)
      VUndefined (VBool true) opened = (inl tt, w') /\
    Controller.world w' = 3 /\
    Controller.debug (Controller.state (Controller.this w')) = VBool true.
Proof.
  intros opened. split; [vm_compute; reflexivity|].
  destruct (openBrowser_keeps_a_connected_browser unit unit unit unit nat
              Fixture.wording (Stage.playwright true)
              VUndefined (VBool true) tt opened eq_refl eq_refl)
    as [w' [Hrun [Hworld [_ [_ [_ [Hdebug _]]]]]]].
  exists w'. split; [exact Hrun|]. split; [exact Hworld|exact Hdebug].
Defined.

(** X21 where [newContext] rejects: the first [openBrowser] fails after two
    calls to Playwright, the second resolves without a call and the
    controller is not initialized. *)
Lemma a_failed_launch_leaves_the_browser_half_open_witness :
  exists w1 w2,
    Controller.openBrowser Fixture.wording (Stage.playwright false)
      VUndefined VUndefined Stage.start =
      (inr {| Index.message := lit "Failed to launch browser";
              Index.suggestion :=
                Some (lit "Technical details: Target closed") |}, w1) /\
    Controller.world w1 = 2 /\
    Controller.openBrowser Fixture.wording (Stage.playwright false)
      VUndefined VUndefined w1 = (inl tt, w2) /\
    Controller.isInitialized (Stage.playwright false) w2 = false /\
    Controller.world w2 = 2.
Proof.
  destruct (a_failed_launch_leaves_the_browser_half_open unit unit unit unit
              nat Fixture.wording (Stage.playwright false)
              VUndefined VUndefined tt (lit "Target closed") 1 2 Stage.start
              eq_refl eq_refl eq_refl eq_refl)
    as [w1 [Hfirst [_ [_ [Hworld Hagain]]]]].
  destruct (Hagain eq_refl VUndefined VUndefined) as [w2 [Hsecond [Hinit Hw2]]].
  exists w1, w2. repeat split; assumption.
Defined.

(** ** The hierarchy of elements *)

Lemma nat_lt_number_mono (x : number) (n n' : nat) :
  (n <= n')%nat -> nat_lt_number n' x = true -> nat_lt_number n x = true.
Proof.
  unfold nat_lt_number. intros Hle.
  destruct (negative x); [trivial|].
  destruct (Z.leb (Z.of_nat (length (digits x))) (point x)); intros H.
  - apply Z.ltb_lt in H. apply Z.ltb_lt. lia.
  - apply Z.ltb_lt in H. apply Z.ltb_lt.
    assert (0 <= 10 ^ (Z.of_nat (length (digits x)) - point x))%Z
      by (apply Z.pow_nonneg; lia).
    nia.
Qed.










Section HierarchyFacts.

Variable toLowerCase : jstring -> jstring.
Variable maxDepth : number.
Variables includeText includeAttributes : value.













End HierarchyFacts.


